(** * RopeDragging: reward, termination, observation and reset logic

    A shallow embedding of
    [omni_drones/envs/manipulation/rope_dragging.py] (class [RopeDragging]).

    Number model.  The environment computes on batched float tensors.  Tensor
    entries are modelled as real numbers and a tensor axis as a list; axes of
    size one that only exist for broadcasting ([keepdim], [unsqueeze]) are not
    represented.  Rounding, overflow and signed zeros are outside the model.
    The only place where the code itself inspects a non-finite value is
    [torch.isnan(self.drone_states)], so the cached vehicle states carry the
    markers [NaN], [PInf] and [NInf] next to the finite values.

    Batch model.  Every operation of the environment acts row by row on the
    leading axis (one row per parallel instance), so the step functions are
    given for one instance and lifted to the batch with [mapM]; the reset,
    which indexes the batch with [env_ids], is given on the batch. *)

From Stdlib Require Import Reals Lra Lia ZArith.
From stdpp Require Import base option list.

Open Scope R_scope.

(** ** Tensor operations used by the environment *)

Module Tensor.

Definition square (x : R) : R := x * x.

(** [t.sum(-1)] *)
Definition tsum (l : list R) : R := foldr Rplus 0 l.

(** [t.mean(-1)]: the sum divided by the number of entries. *)
Definition mean (l : list R) : R := tsum l / INR (length l).

(** [torch.norm(t, dim=-1)]: the Euclidean norm. *)
Definition norm (l : list R) : R := sqrt (tsum (square <$> l)).

(** [t.clamp(lo, hi)] is [min(max(t, lo), hi)]. *)
Definition clamp (lo hi x : R) : R := Rmin (Rmax x lo) hi.

(** [t.min(dim).values]; reducing an axis of size zero raises. *)
Definition tmin (l : list R) : option R :=
  match l with
  | [] => None
  | x :: l' => Some (foldl Rmin x l')
  end.

(** Elementwise binary operations on two rows of the same length. *)
Definition vsub (a b : list R) : list R := zip_with Rminus a b.
Definition vadd (a b : list R) : list R := zip_with Rplus a b.
Definition vmul (a b : list R) : list R := zip_with Rmult a b.
Definition vdiv (a b : list R) : list R := zip_with Rdiv a b.

(** [t[-k:]] *)
Definition last_n {A} (k : nat) (l : list A) : list A :=
  drop (length l - k) l.

(** [start.lerp_(end, weight)] is [start + weight * (end - start)]. *)
Definition lerp (start end_ weight : R) : R :=
  start + weight * (end_ - start).

(** [D.Uniform(low, high).sample()] is [low + rand * (high - low)] where
    [rand] is drawn by [torch.rand], that is from the interval [[0, 1)];
    the draw [u] is an explicit argument.  The argument validation that the
    distribution's constructor may perform is not represented. *)
Definition uniform_sample (low high u : list R) : list R :=
  vadd low (vmul u (vsub high low)).

(** A valid draw of [torch.rand] for a row of [k] entries. *)
Definition is_draw (k : nat) (u : list R) : Prop :=
  length u = k /\ Forall (fun x => 0 <= x < 1) u.

End Tensor.

Import Tensor.

(** ** Tensor entries that may be non-finite *)

Inductive fval : Type :=
  | Fin (x : R)
  | PInf
  | NInf
  | NaN.

(** [torch.isnan] *)
Definition isnan (v : fval) : bool :=
  match v with
  | NaN => true
  | _ => false
  end.

Definition is_finite (v : fval) : bool :=
  match v with
  | Fin _ => true
  | _ => false
  end.

#[global] Instance Rlt_decision (x y : R) : Decision (x < y) := Rlt_dec x y.
#[global] Instance Rle_decision (x y : R) : Decision (x <= y) := Rle_dec x y.

(** [v < c] for a finite threshold [c]: every comparison with NaN is false. *)
Definition flt (v : fval) (c : R) : bool :=
  match v with
  | Fin x => bool_decide (x < c)
  | NInf => true
  | PInf => false
  | NaN => false
  end.

(** [t.any(-1)] *)
Definition any {A} (p : A -> bool) (l : list A) : bool :=
  foldr (fun x acc => p x || acc) false l.

(** ** Configuration and per-instance data *)

(** The values read from [cfg.task] in [__init__], the vehicle count
    [self.drone.n], the vehicle masses [self.drone.MASS_0] and
    [self.max_episode_length]. *)
Record Cfg : Type := {
  reward_effort_weight : R;
  reward_spin_weight : R;
  reward_swing_weight : R;
  reward_action_smoothness_weight : R;
  reward_distance_scale : R;
  time_encoding : bool;
  safe_distance : R;
  payload_mass_scale : R * R;
  num_drones : nat;
  drone_mass_0 : list R;
  max_episode_length : Z;
}.

(** [self.alpha = 0.8] *)
Definition alpha : R := 0.8.

(** [self.time_encoding_dim = 4] *)
Definition time_encoding_dim : nat := 4.

(** One row of [self.stats] ([stats_spec] in [_set_specs]): [return] and
    [action_smoothness] have one entry per vehicle, the others one entry. *)
Record Stats : Type := {
  st_return : list R;
  st_episode_len : R;
  st_pos_error : R;
  st_heading_alignment : R;
  st_uprightness : R;
  st_action_smoothness : list R;
}.

(** One row of everything [_compute_reward_and_done] reads: simulator
    readings ([payload.get_velocities], [group.get_joint_positions],
    [group.joint_limits], [drone.throttle_difference]), the effort stored by
    [_pre_sim_step], the fields cached by [_compute_state_and_obs], the step
    counter and the running statistics.  The group is one articulation per
    instance: its joint tensors have one row per instance, and a joint limit
    is the pair (lower, upper). *)
Record Instance : Type := {
  payload_velocities : list R;
  joint_positions : list R;
  joint_limits : list (R * R);
  throttle_difference : list R;
  effort : list R;
  target_payload_rpose : list R;
  drone_pdist : list (list R);
  payload_up : list R;
  drone_states : list (list fval);
  pos_error : R;
  heading_alignment : R;
  progress_buf : Z;
  stats : Stats;
}.

(** One row of the tensordict returned by [_compute_reward_and_done]. *)
Record Output : Type := {
  reward : list R;
  done : bool;
  terminated : bool;
  truncated : bool;
}.

(** ** Reward terms of [_compute_reward_and_done], in source order *)

(** [joint_positions[..., :16] / joint_limits[..., :16, 0].abs()] *)
Definition scaled_joint_positions (self : Instance) : list R :=
  vdiv (take 16 (joint_positions self))
       ((fun lim => Rabs (fst lim)) <$> take 16 (joint_limits self)).

(** [torch.norm(self.target_payload_rpose, dim=-1)] *)
Definition distance (self : Instance) : R :=
  norm (target_payload_rpose self).

(** [self.drone_pdist.min(dim=-2).values.min(dim=-2).values]: the minimum
    over the other vehicles, then over the vehicles. *)
Definition separation (pdist : list (list R)) : option R :=
  mapM tmin pdist ≫= tmin.

Definition reward_pose (cfg : Cfg) (self : Instance) : R :=
  exp (- distance self * reward_distance_scale cfg).

(** [torch.square((up + 1) / 2)] with [up = self.payload_up[:, 2]] *)
Definition reward_up (up : R) : R := square ((up + 1) / 2).

(** [vels[:, -3:].abs().sum(-1)] *)
Definition spinnage (self : Instance) : R :=
  tsum (Rabs <$> last_n 3 (payload_velocities self)).

Definition reward_spin (cfg : Cfg) (self : Instance) : R :=
  reward_spin_weight cfg * exp (- square (spinnage self)).

(** [vels[:, :3].abs().sum(-1)] *)
Definition swing (self : Instance) : R :=
  tsum (Rabs <$> take 3 (payload_velocities self)).

Definition reward_swing (cfg : Cfg) (self : Instance) : R :=
  reward_swing_weight cfg * exp (- square (swing self)).

Definition reward_effort (cfg : Cfg) (self : Instance) : R :=
  reward_effort_weight cfg * mean ((fun e => exp (- e)) <$> effort self).

Definition reward_separation (cfg : Cfg) (sep : R) : R :=
  clamp 0 1 (square (sep / safe_distance cfg)).

Definition reward_joint_limit (self : Instance) : R :=
  0.5 * mean ((fun q => 1 - square q) <$> scaled_joint_positions self).

(** One entry per vehicle. *)
Definition reward_action_smoothness (cfg : Cfg) (self : Instance) : list R :=
  (fun td => reward_action_smoothness_weight cfg * - td)
    <$> throttle_difference self.

(** The value assigned to [reward[:]], before it is broadcast. *)
Definition reward_value (cfg : Cfg) (self : Instance) (sep up : R) : R :=
  reward_separation cfg sep * (
    reward_pose cfg self
    + reward_pose cfg self
      * (reward_up up + reward_spin cfg self + reward_swing cfg self)
    + reward_joint_limit self
    + mean (reward_action_smoothness cfg self)
    + reward_effort cfg self).

(** ** Termination flags *)

(** [(self.drone_states[..., 2] < 0.2).any(-1)]; indexing a state row
    that has no third entry raises. *)
Definition misbehave (self : Instance) : option bool :=
  alts ← mapM (fun row => row !! 2%nat) (drone_states self);
  Some (any (fun a => flt a 0.2) alts).

(** [torch.isnan(self.drone_states).any(-1)], then [.any(-1)] *)
Definition hasnan (self : Instance) : bool :=
  any (fun b : bool => b) (any isnan <$> drone_states self).

(** [self.progress_buf >= self.max_episode_length] *)
Definition is_truncated (cfg : Cfg) (self : Instance) : bool :=
  bool_decide (max_episode_length cfg <= progress_buf self)%Z.

(** ** Running statistics *)

Definition update_stats (self : Instance) (rew : list R) (up : R) : Stats :=
  let s := stats self in
  {| st_return := (fun x => x + mean rew) <$> st_return s;
     st_episode_len := IZR (progress_buf self);
     st_pos_error := lerp (st_pos_error s) (pos_error self) (1 - alpha);
     st_heading_alignment :=
       lerp (st_heading_alignment s) (heading_alignment self) (1 - alpha);
     st_uprightness := lerp (st_uprightness s) up (1 - alpha);
     st_action_smoothness :=
       zip_with (fun old td => lerp old (- td) (1 - alpha))
                (st_action_smoothness s) (throttle_difference self) |}.

Definition set_stats (self : Instance) (s : Stats) : Instance :=
  {| payload_velocities := payload_velocities self;
     joint_positions := joint_positions self;
     joint_limits := joint_limits self;
     throttle_difference := throttle_difference self;
     effort := effort self;
     target_payload_rpose := target_payload_rpose self;
     drone_pdist := drone_pdist self;
     payload_up := payload_up self;
     drone_states := drone_states self;
     pos_error := pos_error self;
     heading_alignment := heading_alignment self;
     progress_buf := progress_buf self;
     stats := s |}.

(** ** [_compute_reward_and_done] for one instance

    [None] stands for a raised exception (an empty reduction or an index out
    of range); all of them happen before the statistics are written. *)
Definition _compute_reward_and_done (cfg : Cfg) (self : Instance)
  : option (Instance * Output) :=
  sep ← separation (drone_pdist self);
  up ← payload_up self !! 2%nat;
  let rew := replicate (num_drones cfg) (reward_value cfg self sep up) in
  mis ← misbehave self;
  let term := mis || hasnan self in
  let trunc := is_truncated cfg self in
  Some (set_stats self (update_stats self rew up),
        {| reward := rew;
           done := term || trunc;
           terminated := term;
           truncated := trunc |}).

(** The batched function: one row per instance. *)
Definition compute_reward_and_done_batch (cfg : Cfg) (envs : list Instance)
  : option (list (Instance * Output)) :=
  mapM (_compute_reward_and_done cfg) envs.

(** ** Helpers of [omni_drones.utils.torch] *)

(** Modelled from the spec: [euler_to_quaternion] and [quat_axis] of
    [omni_drones.utils.torch] are not part of the sources.  The spec says of
    them only that heading and up are "specific local axes rotated by the
    payload's orientation quaternion" and that a heading is "derived from an
    orientation quaternion", so they are an interface here and every result
    below holds for each implementation of it. *)
Class QuatOps : Type := {
  euler_to_quaternion : list R -> list R;
  quat_axis : list R -> nat -> list R;
}.

(** Modelled from the spec: [cpos], [off_diag] and [others] of
    [omni_drones.utils.torch] are not part of the sources.  The spec describes
    "pairwise vehicle relative positions and distances (all ordered pairs
    excluding self), using an outer-product-then-mask pattern over the vehicle
    set" and an "all but self" masking operation: [cpos] is the table of all
    differences, [off_diag] removes entry [i] from row [i], and [others]
    pairs every vehicle with the rows of all other vehicles. *)
Definition cpos (p1 p2 : list (list R)) : list (list (list R)) :=
  (fun a => (fun b => vsub a b) <$> p2) <$> p1.

Definition off_diag {A} (a : list (list A)) : list (list A) :=
  imap (fun i row => delete i row) a.

Definition others {A} (x : list A) : list (list A) :=
  off_diag (replicate (length x) x).

(** ** [_compute_state_and_obs] for one instance *)

(** [self.payload_target_pos = torch.tensor([0., 0., 2.])] *)
Definition payload_target_pos : list R := [0; 0; 2].

(** Simulator readings of one instance: the rows of [drone.get_state()],
    the payload pose in the instance frame and the payload velocities. *)
Record Reading : Type := {
  rd_drone_states : list (list R);
  rd_payload_pos : list R;
  rd_payload_rot : list R;
  rd_payload_vels : list R;
}.

(** The fields assigned to [self] and the entries of the returned
    tensordict, for one instance. *)
Record Aggregate : Type := {
  ag_payload_heading : list R;
  ag_payload_up : list R;
  ag_drone_rpos : list (list (list R));
  ag_drone_pdist : list (list R);
  ag_target_payload_rpose : list R;
  ag_pos_error : R;
  ag_heading_alignment : R;
  obs_self : list (list (list R));
  obs_others : list (list (list R));
  obs_payload : list (list (list R));
  state_payload : list (list R);
  state_drones : list (list R);
}.

(** Row [i] of [torch.eye(n)] *)
Definition one_hot (n i : nat) : list R :=
  (fun j => if decide (i = j) then 1 else 0) <$> seq 0 n.

Section StateAndObs.
Context `{QuatOps}.

(** The list [payload_state] after [torch.cat(payload_state, dim=-1)]. *)
Definition payload_state (cfg : Cfg) (target_heading : list R)
    (progress : Z) (rd : Reading) : list R :=
  let payload_heading := quat_axis (rd_payload_rot rd) 0 in
  let payload_up := quat_axis (rd_payload_rot rd) 2 in
  let rpose :=
    vsub payload_target_pos (rd_payload_pos rd)
    ++ vsub target_heading payload_heading in
  rpose ++ rd_payload_rot rd ++ rd_payload_vels rd
    ++ payload_heading ++ payload_up
    ++ (if time_encoding cfg
        then replicate time_encoding_dim
               (IZR progress / IZR (max_episode_length cfg))
        else []).

Definition _compute_state_and_obs (cfg : Cfg) (target_heading : list R)
    (progress : Z) (rd : Reading) : Aggregate :=
  let n := num_drones cfg in
  let drone_pos := take 3 <$> rd_drone_states rd in
  let payload_heading := quat_axis (rd_payload_rot rd) 0 in
  let payload_up := quat_axis (rd_payload_rot rd) 2 in
  let drone_rpos := off_diag (cpos drone_pos drone_pos) in
  let drone_pdist := (fun row : list (list R) => norm <$> row) <$> drone_rpos in
  let payload_drone_rpos := (fun p => vsub (rd_payload_pos rd) p) <$> drone_pos in
  let rpose :=
    vsub payload_target_pos (rd_payload_pos rd)
    ++ vsub target_heading payload_heading in
  let pstate := payload_state cfg target_heading progress rd in
  let o_self :=
    imap (fun i (pr_st : list R * list R) =>
            [ (Ropp <$> fst pr_st) ++ drop 3 (snd pr_st) ++ one_hot n i ])
         (zip payload_drone_rpos (rd_drone_states rd)) in
  let o_others :=
    zip_with (fun rp_pd ot =>
                zip_with (fun rd1 o => fst rd1 ++ [snd rd1] ++ o)
                         (zip (fst rp_pd) (snd rp_pd)) ot)
             (zip drone_rpos drone_pdist)
             (others ((fun st => take 10 (drop 3 st)) <$> rd_drone_states rd)) in
  {| ag_payload_heading := payload_heading;
     ag_payload_up := payload_up;
     ag_drone_rpos := drone_rpos;
     ag_drone_pdist := drone_pdist;
     ag_target_payload_rpose := rpose;
     ag_pos_error := norm (take 3 rpose);
     ag_heading_alignment := tsum (vmul payload_heading target_heading);
     obs_self := o_self;
     obs_others := o_others;
     obs_payload := replicate n [pstate];
     state_payload := [pstate];
     state_drones := concat o_self |}.

(** The row read by [_compute_reward_and_done] after the aggregation of a
    finite reading: the cached fields, the remaining simulator readings, the
    step counter and the statistics. *)
Definition instance_of (rd : Reading) (ag : Aggregate)
    (joint_pos : list R) (joint_lim : list (R * R))
    (throttle_diff eff : list R) (progress : Z) (s : Stats) : Instance :=
  {| payload_velocities := rd_payload_vels rd;
     joint_positions := joint_pos;
     joint_limits := joint_lim;
     throttle_difference := throttle_diff;
     effort := eff;
     target_payload_rpose := ag_target_payload_rpose ag;
     drone_pdist := ag_drone_pdist ag;
     payload_up := ag_payload_up ag;
     drone_states := (fun row : list R => Fin <$> row) <$> rd_drone_states rd;
     pos_error := ag_pos_error ag;
     heading_alignment := ag_heading_alignment ag;
     progress_buf := progress;
     stats := s |}.

End StateAndObs.

(** ** Sampling distributions built in [__init__] *)

Definition times_pi (l : list R) : list R := (fun x => x * PI) <$> l.

Definition payload_target_rpy_low : list R := times_pi [0; 0; 0].
Definition payload_target_rpy_high : list R := times_pi [0; 0; 0].

Definition payload_mass_low (cfg : Cfg) : R :=
  fst (payload_mass_scale cfg) * tsum (drone_mass_0 cfg).
Definition payload_mass_high (cfg : Cfg) : R :=
  snd (payload_mass_scale cfg) * tsum (drone_mass_0 cfg).

Definition init_pos_low : list R := [-3; -3; 1].
Definition init_pos_high : list R := [3; 3; 2.5].

Definition init_rpy_low : list R := times_pi [0; 0; 0].
Definition init_rpy_high : list R := times_pi [0; 0; 2].

(** ** [_reset_idx] *)

(** The [torch.rand] draws behind the four [sample] calls made for one
    entry of [env_ids]. *)
Record Draws : Type := {
  u_pos : list R;
  u_rpy : list R;
  u_target_rpy : list R;
  u_mass : R;
}.

Definition valid_draws (d : Draws) : Prop :=
  is_draw 3 (u_pos d) /\ is_draw 3 (u_rpy d)
  /\ is_draw 3 (u_target_rpy d) /\ 0 <= u_mass d < 1.

(** The local variables of [_reset_idx] for one entry of [env_ids]. *)
Record ResetSample : Type := {
  rs_pos : list R;
  rs_rpy : list R;
  rs_rot : list R;
  rs_heading : list R;
  rs_payload_target_rpy : list R;
  rs_payload_target_rot : list R;
  rs_payload_target_heading : list R;
  rs_payload_mass : R;
  rs_distance : R;
}.

(** One row of the state that [_reset_idx] writes: the pose handed to
    [group.set_world_poses], the mass handed to [payload.set_masses], the
    cached target heading and distance, and the running statistics.
    [envs_position] is the row of [self.envs_positions].  The velocities and
    joint states, which are restored from the values stored in [__init__],
    and the pose of the target marker are not represented. *)
Record EnvRow : Type := {
  envs_position : list R;
  group_pose : list R * list R;
  payload_mass : R;
  payload_target_heading : list R;
  last_distance : R;
  row_stats : Stats;
}.

(** [self.stats[env_ids] = 0.] fills every entry of the row, keeping the
    shapes. *)
Definition zero_stats (s : Stats) : Stats :=
  {| st_return := (fun _ => 0) <$> st_return s;
     st_episode_len := 0;
     st_pos_error := 0;
     st_heading_alignment := 0;
     st_uprightness := 0;
     st_action_smoothness := (fun _ => 0) <$> st_action_smoothness s |}.

(** All entries of a statistics row are zero. *)
Definition all_zero (s : Stats) : Prop :=
  Forall (fun x => x = 0) (st_return s)
  /\ st_episode_len s = 0
  /\ st_pos_error s = 0
  /\ st_heading_alignment s = 0
  /\ st_uprightness s = 0
  /\ Forall (fun x => x = 0) (st_action_smoothness s).

(** An entry [i] of an index tensor addresses row [i] when it is not
    negative and row [i + E] when it is; outside [-E .. E - 1] indexing
    raises. *)
Definition norm_index (E : nat) (i : Z) : option nat :=
  if bool_decide (0 <= i < Z.of_nat E)%Z then Some (Z.to_nat i)
  else if bool_decide (- Z.of_nat E <= i < 0)%Z
       then Some (Z.to_nat (i + Z.of_nat E))
       else None.

Section Reset.
Context `{QuatOps}.

Definition sample_reset (cfg : Cfg) (d : Draws) : ResetSample :=
  let pos := uniform_sample init_pos_low init_pos_high (u_pos d) in
  let rpy := uniform_sample init_rpy_low init_rpy_high (u_rpy d) in
  let rot := euler_to_quaternion rpy in
  let heading := quat_axis rot 0 in
  let payload_target_rpy :=
    uniform_sample payload_target_rpy_low payload_target_rpy_high
                   (u_target_rpy d) in
  let payload_target_rot := euler_to_quaternion payload_target_rpy in
  let payload_target_heading := quat_axis payload_target_rot 0 in
  let payload_masses :=
    payload_mass_low cfg
    + u_mass d * (payload_mass_high cfg - payload_mass_low cfg) in
  {| rs_pos := pos;
     rs_rpy := rpy;
     rs_rot := rot;
     rs_heading := heading;
     rs_payload_target_rpy := payload_target_rpy;
     rs_payload_target_rot := payload_target_rot;
     rs_payload_target_heading := payload_target_heading;
     rs_payload_mass := payload_masses;
     rs_distance :=
       norm (vsub payload_target_pos pos
             ++ vsub payload_target_heading heading) |}.

(** The writes of [_reset_idx] to one addressed row. *)
Definition reset_row (rs : ResetSample) (row : EnvRow) : EnvRow :=
  {| envs_position := envs_position row;
     group_pose := (vadd (rs_pos rs) (envs_position row), rs_rot rs);
     payload_mass := rs_payload_mass rs;
     payload_target_heading := rs_payload_target_heading rs;
     last_distance := rs_distance rs;
     row_stats := zero_stats (row_stats row) |}.

(** [_reset_idx(env_ids)]: entry [j] of [env_ids] receives the samples made
    from [draws j]; the rows are written in the order of [env_ids], so that
    of two entries that address the same row the later one remains. *)
Definition _reset_idx (cfg : Cfg) (env_ids : list Z) (draws : nat -> Draws)
    (envs : list EnvRow) : option (list EnvRow) :=
  ids ← mapM (norm_index (length envs)) env_ids;
  Some (foldl (fun acc (jk : nat * nat) =>
                 alter (reset_row (sample_reset cfg (draws (fst jk))))
                       (snd jk) acc)
              envs (imap pair ids)).

(** The heading of the zero orientation. *)
Definition identity_heading : list R :=
  quat_axis (euler_to_quaternion [0; 0; 0]) 0.

End Reset.

(** ** The step counter *)

(** The row of a step: what the simulator and the aggregation produced for
    it, with the counter and the statistics that the environment carries
    from step to step. *)
Definition with_progress (p : Z) (s : Stats) (snap : Instance) : Instance :=
  {| payload_velocities := payload_velocities snap;
     joint_positions := joint_positions snap;
     joint_limits := joint_limits snap;
     throttle_difference := throttle_difference snap;
     effort := effort snap;
     target_payload_rpose := target_payload_rpose snap;
     drone_pdist := drone_pdist snap;
     payload_up := payload_up snap;
     drone_states := drone_states snap;
     pos_error := pos_error snap;
     heading_alignment := heading_alignment snap;
     progress_buf := p;
     stats := s |}.

(** Modelled from the spec: [progress_buf] is maintained by the base class
    [IsaacEnv], which is not part of the sources.  The spec calls it the
    "elapsed step count": it is zero after a reset and every step adds one
    to it before [_compute_reward_and_done] runs. *)
Definition step (cfg : Cfg) (p : Z) (s : Stats) (snap : Instance)
  : option (Instance * Output) :=
  _compute_reward_and_done cfg (with_progress (p + 1) s snap).

(** Modelled from the spec: consecutive steps of one instance, the first
    one taken with counter [p] and statistics [s]; the result lists their
    outputs. *)
Fixpoint run (cfg : Cfg) (p : Z) (s : Stats) (snaps : list Instance)
  : option (list Output) :=
  match snaps with
  | [] => Some []
  | snap :: rest =>
      r ← step cfg p s snap;
      outs ← run cfg (progress_buf (fst r)) (stats (fst r)) rest;
      Some (snd r :: outs)
  end.

(** ** Predicates of the statements *)

(** The table of pairwise distances computed from the vehicle positions, as
    [_compute_state_and_obs] caches it in [self.drone_pdist]. *)
Definition pairwise_distances (drone_pos : list (list R)) : list (list R) :=
  (fun row : list (list R) => norm <$> row)
    <$> off_diag (cpos drone_pos drone_pos).

(** The shapes that the tensors of one instance have in the environment:
    [n] vehicles, a distance table of [n] rows with [n - 1] entries, state
    rows that hold at least a position and an up vector of three entries. *)
Record wf_instance (cfg : Cfg) (self : Instance) : Prop := {
  wf_pdist_rows : length (drone_pdist self) = num_drones cfg;
  wf_pdist_cols :
    Forall (fun row => length row = (num_drones cfg - 1)%nat) (drone_pdist self);
  wf_up : length (payload_up self) = 3%nat;
  wf_states :
    Forall (fun row : list fval => (3 <= length row)%nat) (drone_states self);
  wf_effort : length (effort self) = num_drones cfg;
  wf_throttle : length (throttle_difference self) = num_drones cfg;
}.

(** The entry [a] is below the finite threshold [c]. *)
Definition below (a : fval) (c : R) : Prop :=
  match a with
  | Fin x => x < c
  | NInf => True
  | PInf | NaN => False
  end.

(** Some vehicle's altitude, the third entry of its state, is below 0.2. *)
Definition low_altitude (self : Instance) : Prop :=
  exists row a, row ∈ drone_states self /\ row !! 2%nat = Some a /\ below a 0.2.

(** Some vehicle's state contains a NaN. *)
Definition has_nan (self : Instance) : Prop :=
  exists row, row ∈ drone_states self /\ NaN ∈ row.

(** Some vehicle's state contains a value that is not finite. *)
Definition has_non_finite (self : Instance) : Prop :=
  exists row v, row ∈ drone_states self /\ v ∈ row /\ is_finite v = false.

(** A step on a well-shaped row on which neither termination condition
    fires. *)
Definition quiet (cfg : Cfg) (snap : Instance) : Prop :=
  wf_instance cfg snap /\ ~ low_altitude snap /\ ~ has_nan snap.

(** Row [k] is addressed by some entry of [env_ids]. *)
Definition addressed (E : nat) (env_ids : list Z) (k : nat) : Prop :=
  exists i, i ∈ env_ids /\ norm_index E i = Some k.

(** The writes to row [k] among a list of (entry, row) writes. *)
Definition writes_at (f : nat -> EnvRow -> EnvRow) (k : nat) (row : EnvRow)
    (l : list (nat * nat)) : EnvRow :=
  foldl (fun r (jk : nat * nat) =>
           if decide (snd jk = k) then f (fst jk) r else r) row l.

(** ** The reward formula of the specification *)

(** The reward as the specification words it: on the named components of the
    relative pose, of the payload velocity (linear part first) and of the up
    vector, with the agent means taken over the [n] vehicles and the joint
    term over the first 16 (position, limits) pairs. *)
Module Spec.

Definition mean_over (n : nat) (l : list R) : R := tsum l / INR n.

Definition reward (cfg : Cfg) (sep d0 d1 d2 d3 d4 d5 up_z : R)
    (vx vy vz wx wy wz : R) (joints : list (R * (R * R)))
    (efforts throttle_diffs : list R) : R :=
  let n := num_drones cfg in
  let distance := sqrt (d0 ^ 2 + d1 ^ 2 + d2 ^ 2 + d3 ^ 2 + d4 ^ 2 + d5 ^ 2) in
  let reward_pose := exp (- (distance * reward_distance_scale cfg)) in
  let reward_up := ((up_z + 1) / 2) ^ 2 in
  let reward_spin :=
    reward_spin_weight cfg * exp (- (Rabs wx + Rabs wy + Rabs wz) ^ 2) in
  let reward_swing :=
    reward_swing_weight cfg * exp (- (Rabs vx + Rabs vy + Rabs vz) ^ 2) in
  let reward_effort :=
    reward_effort_weight cfg
    * mean_over n ((fun e => exp (- e)) <$> efforts) in
  let reward_separation := Rmin (Rmax ((sep / safe_distance cfg) ^ 2) 0) 1 in
  let reward_joint_limit :=
    0.5 * mean ((fun j : R * (R * R) =>
                   1 - (fst j / Rabs (fst (snd j))) ^ 2) <$> take 16 joints) in
  let reward_action_smoothness :=
    (fun td => reward_action_smoothness_weight cfg * (- td))
      <$> throttle_diffs in
  reward_separation
  * (reward_pose
     + reward_pose * (reward_up + reward_spin + reward_swing)
     + reward_joint_limit
     + mean_over n reward_action_smoothness
     + reward_effort).

End Spec.

(** ** An implementation of the quaternion interface *)

Module Std.

(** Modelled from the spec: an implementation of the interface that the
    missing [euler_to_quaternion] and [quat_axis] stand behind, for the
    examples: the usual conversion of roll, pitch and yaw to a unit quaternion
    [[w; x; y; z]] and the rotation of a basis vector by it, which is the
    spec's "local axes rotated by the payload's orientation quaternion". *)
Definition std_euler_to_quaternion (e : list R) : list R :=
  match e with
  | [r; p; y] =>
      let cy := cos (y * 0.5) in
      let sy := sin (y * 0.5) in
      let cp := cos (p * 0.5) in
      let sp := sin (p * 0.5) in
      let cr := cos (r * 0.5) in
      let sr := sin (r * 0.5) in
      [cy * cr * cp + sy * sr * sp;
       cy * sr * cp - sy * cr * sp;
       cy * cr * sp + sy * sr * cp;
       sy * cr * cp - cy * sr * sp]
  | _ => []
  end.

Definition cross (a b : list R) : list R :=
  match a, b with
  | [a0; a1; a2], [b0; b1; b2] =>
      [a1 * b2 - a2 * b1; a2 * b0 - a0 * b2; a0 * b1 - a1 * b0]
  | _, _ => []
  end.

Definition quat_rotate (q v : list R) : list R :=
  match q with
  | w :: q_vec =>
      vadd (vadd ((fun x => x * (2 * (w * w) - 1)) <$> v)
                 ((fun x => x * w * 2) <$> cross q_vec v))
           ((fun x => x * tsum (vmul q_vec v) * 2) <$> q_vec)
  | [] => []
  end.

Definition std_quat_axis (q : list R) (axis : nat) : list R :=
  quat_rotate q (one_hot 3 axis).

Definition quat_ops : QuatOps :=
  {| euler_to_quaternion := std_euler_to_quaternion;
     quat_axis := std_quat_axis |}.

Definition draws : Draws :=
  {| u_pos := [0.5; 0.25; 0];
     u_rpy := [0.1; 0.9; 0.5];
     u_target_rpy := [0.3; 0.2; 0.7];
     u_mass := 0.5 |}.

Definition busy_stats : Stats :=
  {| st_return := [3; 3];
     st_episode_len := 7;
     st_pos_error := 0.4;
     st_heading_alignment := 0.9;
     st_uprightness := 1;
     st_action_smoothness := [-0.1; -0.2] |}.

Definition row (x : R) : EnvRow :=
  {| envs_position := [x; 0; 0];
     group_pose := ([x; 0; 0.5], [1; 0; 0; 0]);
     payload_mass := 0.04;
     payload_target_heading := [1; 0; 0];
     last_distance := 1.5;
     row_stats := busy_stats |}.

Definition rows : list EnvRow := [row 0; row 4; row 8].

End Std.

(** ** Example data: two vehicles half a metre apart *)

Module Example.

Definition cfg : Cfg :=
  {| reward_effort_weight := 0.1;
     reward_spin_weight := 0.8;
     reward_swing_weight := 0.8;
     reward_action_smoothness_weight := 0;
     reward_distance_scale := 1.2;
     time_encoding := true;
     safe_distance := 0.5;
     payload_mass_scale := (0.5, 0.8);
     num_drones := 2;
     drone_mass_0 := [0.03; 0.03];
     max_episode_length := 3 |}.

Definition drone_pos : list (list R) := [[0; 0; 1]; [0.5; 0; 1]].

Definition zero_row : Stats :=
  {| st_return := [0; 0];
     st_episode_len := 0;
     st_pos_error := 0;
     st_heading_alignment := 0;
     st_uprightness := 0;
     st_action_smoothness := [0; 0] |}.

Definition inst : Instance :=
  {| payload_velocities := [0.1; 0; 0; 0; 0; -0.2];
     joint_positions := [0.1; -0.2];
     joint_limits := [(-1, 1); (-2, 2)];
     throttle_difference := [0.1; 0.3];
     effort := [1; 2];
     target_payload_rpose := [0; 0; 1.5; 0; 0; 0];
     drone_pdist := pairwise_distances drone_pos;
     payload_up := [0; 0; 1];
     drone_states := [[Fin 0; Fin 0; Fin 1]; [Fin 0.5; Fin 0; Fin 1]];
     pos_error := 1.5;
     heading_alignment := 1;
     progress_buf := 1;
     stats := zero_row |}.

End Example.

(** ** Further example rows *)

Module Collided.

(** Both vehicles at the same place. *)
Definition inst : Instance :=
  {| payload_velocities := payload_velocities Example.inst;
     joint_positions := joint_positions Example.inst;
     joint_limits := joint_limits Example.inst;
     throttle_difference := throttle_difference Example.inst;
     effort := effort Example.inst;
     target_payload_rpose := target_payload_rpose Example.inst;
     drone_pdist := [[0]; [0]];
     payload_up := payload_up Example.inst;
     drone_states := [[Fin 0; Fin 0; Fin 1]; [Fin 0; Fin 0; Fin 1]];
     pos_error := pos_error Example.inst;
     heading_alignment := heading_alignment Example.inst;
     progress_buf := 1;
     stats := Example.zero_row |}.

End Collided.

Module Overflow.

(** The first vehicle flies at altitude 1 with an infinite velocity entry. *)
Definition inst : Instance :=
  {| payload_velocities := payload_velocities Example.inst;
     joint_positions := joint_positions Example.inst;
     joint_limits := joint_limits Example.inst;
     throttle_difference := throttle_difference Example.inst;
     effort := effort Example.inst;
     target_payload_rpose := target_payload_rpose Example.inst;
     drone_pdist := [[0.5]; [0.5]];
     payload_up := payload_up Example.inst;
     drone_states :=
       [[Fin 0; Fin 0; Fin 1; PInf]; [Fin 0.5; Fin 0; Fin 1; Fin 0]];
     pos_error := pos_error Example.inst;
     heading_alignment := heading_alignment Example.inst;
     progress_buf := 1;
     stats := Example.zero_row |}.

End Overflow.

(** ** [_set_specs] *)

(** [drone_state_dim = self.drone.state_spec.shape[-1] + self.drone.n]; the
    length [state_dim] of a vehicle state belongs to the vehicle model. *)
Definition drone_state_dim (cfg : Cfg) (state_dim : nat) : nat :=
  (state_dim + num_drones cfg)%nat.

(** [payload_state_dim]: 22, and [time_encoding_dim] more with the time
    encoding. *)
Definition payload_state_dim (cfg : Cfg) : nat :=
  if time_encoding cfg then (22 + time_encoding_dim)%nat else 22%nat.

(** The last axis of [obs_others]: [13 + 1]. *)
Definition obs_others_dim : nat := (13 + 1)%nat.

(** The shapes of the simulator readings of one instance: [n] vehicle
    states of [state_dim] entries, a position of three, a quaternion of four
    and a velocity of six entries for the payload. *)
Record wf_reading (cfg : Cfg) (state_dim : nat) (rd : Reading) : Prop := {
  wfr_drones : length (rd_drone_states rd) = num_drones cfg;
  wfr_states :
    Forall (fun st : list R => length st = state_dim) (rd_drone_states rd);
  wfr_pos : length (rd_payload_pos rd) = 3%nat;
  wfr_rot : length (rd_payload_rot rd) = 4%nat;
  wfr_vels : length (rd_payload_vels rd) = 6%nat;
}.

(** A pair of a joint position and its limits whose position lies within
    the lower limit's magnitude, as the reward normalises it. *)
Definition within_limit (j : R * (R * R)) : Prop :=
  fst (snd j) <> 0 /\ Rabs (fst j) <= Rabs (fst (snd j)).

(** ** A reading for the examples *)

Module Hover.

(** Two vehicles with states of 13 entries, the payload at the target
    position with the identity orientation and at rest. *)
Definition rd : Reading :=
  {| rd_drone_states :=
       [[0; 0; 1; 1; 0; 0; 0; 0; 0; 0; 0; 0; 0];
        [0.5; 0; 1; 1; 0; 0; 0; 0; 0; 0; 0; 0; 0]];
     rd_payload_pos := [0; 0; 2];
     rd_payload_rot := [1; 0; 0; 0];
     rd_payload_vels := [0; 0; 0; 0; 0; 0] |}.

Definition ag : Aggregate :=
  @_compute_state_and_obs Std.quat_ops Example.cfg [1; 0; 0] 1 rd.

Definition inst : Instance :=
  instance_of rd ag [0.1; -0.2] [(-1, 1); (-2, 2)] [0.1; 0.3] [1; 2] 1
              Example.zero_row.

End Hover.

(** ** Tactics *)

Ltac Rmin_case :=
  unfold Rmin, Rmax; repeat (destruct (Rle_dec _ _)); try lra.

(** * Properties *)

(** ** Reductions *)

Lemma foldl_Rmin_spec (l : list R) (x : R) :
  (foldl Rmin x l = x \/ foldl Rmin x l ∈ l)
  /\ foldl Rmin x l <= x
  /\ Forall (fun y => foldl Rmin x l <= y) l.
Proof.
  revert x. induction l as [|a l IH]; intros x; simpl.
  - split; [by left|]. split; [lra | constructor].
  - destruct (IH (Rmin x a)) as (Hin & Hle & Hall).
    pose proof (Rmin_l x a). pose proof (Rmin_r x a).
    split; [|split].
    + destruct Hin as [Heq | Hin].
      * rewrite Heq. unfold Rmin. destruct (Rle_dec x a); [by left|].
        right. apply list_elem_of_here.
      * right. by apply list_elem_of_further.
    + lra.
    + constructor; [lra | exact Hall].
Qed.

Lemma tmin_Some (l : list R) (m : R) :
  tmin l = Some m -> m ∈ l /\ Forall (fun y => m <= y) l.
Proof.
  destruct l as [|x l]; simpl; [done|]. intros [= <-].
  destruct (foldl_Rmin_spec l x) as (Hin & Hle & Hall). split.
  - destruct Hin as [-> | Hin]; [apply list_elem_of_here|].
    by apply list_elem_of_further.
  - by constructor.
Qed.

Lemma tmin_is_Some (l : list R) : l <> [] -> is_Some (tmin l).
Proof. destruct l; [done | by eexists]. Qed.

(** The separation is an entry of the distance table and a lower bound of
    all its entries. *)
Lemma separation_Some (pd : list (list R)) (sep : R) :
  separation pd = Some sep ->
  (exists row, row ∈ pd /\ sep ∈ row)
  /\ (forall row d, row ∈ pd -> d ∈ row -> sep <= d).
Proof.
  unfold separation. intros Hs.
  apply bind_Some in Hs as (mins & Hmins & Hmin).
  apply mapM_Some in Hmins. apply tmin_Some in Hmin as [Hin Hall].
  split.
  - apply list_elem_of_lookup in Hin as [i Hi].
    destruct (Forall2_lookup_r _ _ _ _ _ Hmins Hi) as (row & Hrow & Hm).
    exists row. split; [by eapply list_elem_of_lookup_2|].
    by apply tmin_Some in Hm as [? _].
  - intros row d Hrow Hd.
    apply list_elem_of_lookup in Hrow as [i Hi].
    destruct (Forall2_lookup_l _ _ _ _ _ Hmins Hi) as (m & Hm & Hrm).
    apply tmin_Some in Hrm as [_ Hrall].
    rewrite Forall_forall in Hrall, Hall.
    transitivity m; [apply Hall; by eapply list_elem_of_lookup_2 | by apply Hrall].
Qed.

(** The reduction succeeds on every non-empty table of non-empty rows. *)
Lemma separation_is_Some (pd : list (list R)) :
  pd <> [] -> Forall (fun row => row <> []) pd -> is_Some (separation pd).
Proof.
  intros Hne Hrows. unfold separation.
  assert (Hm : is_Some (mapM tmin pd)).
  { apply mapM_is_Some. eapply Forall_impl; [exact Hrows|].
    intros row. apply tmin_is_Some. }
  destruct Hm as [mins Hmins]. rewrite Hmins. simpl.
  apply tmin_is_Some. intros ->.
  apply mapM_Some, Forall2_length in Hmins. by destruct pd.
Qed.

Lemma separation_nonneg (pd : list (list R)) (sep : R) :
  Forall (Forall (fun d => 0 <= d)) pd ->
  separation pd = Some sep -> 0 <= sep.
Proof.
  intros Hpos Hs. apply separation_Some in Hs as [(row & Hrow & Hin) _].
  rewrite Forall_forall in Hpos. specialize (Hpos row Hrow).
  rewrite Forall_forall in Hpos. by apply Hpos.
Qed.

Lemma norm_nonneg (l : list R) : 0 <= norm l.
Proof. apply sqrt_pos. Qed.

(** ** Pairwise distances *)

Lemma elem_of_list_delete {A} (l : list A) (i : nat) (x : A) :
  x ∈ delete i l <-> exists j, j <> i /\ l !! j = Some x.
Proof.
  split.
  - intros Hin. apply list_elem_of_lookup in Hin as [j Hj].
    destruct (decide (j < i)%nat) as [Hlt | Hge].
    + rewrite list_lookup_delete_lt in Hj by done. exists j. split; [lia | done].
    + rewrite list_lookup_delete_ge in Hj by lia. exists (S j). split; [lia | done].
  - intros (j & Hne & Hj).
    destruct (decide (j < i)%nat) as [Hlt | Hge].
    + apply list_elem_of_lookup. exists j. by rewrite list_lookup_delete_lt.
    + destruct j as [|j]; [lia|].
      apply list_elem_of_lookup. exists j. by rewrite list_lookup_delete_ge by lia.
Qed.

Lemma off_diag_lookup {A} (a : list (list A)) (i : nat) :
  off_diag a !! i = delete i <$> a !! i.
Proof. unfold off_diag. by rewrite list_lookup_imap. Qed.

Lemma cpos_lookup (p1 p2 : list (list R)) (i : nat) :
  cpos p1 p2 !! i = (fun a => (fun b => vsub a b) <$> p2) <$> p1 !! i.
Proof. unfold cpos. by rewrite list_lookup_fmap. Qed.

Lemma drone_pdist_eq `{QuatOps} cfg th p rd :
  ag_drone_pdist (_compute_state_and_obs cfg th p rd)
  = pairwise_distances (take 3 <$> rd_drone_states rd).
Proof. reflexivity. Qed.

(** Row [i] holds the distances from vehicle [i] to every other vehicle. *)
Lemma pairwise_distances_row (pos : list (list R)) (i : nat) (row : list R) (d : R) :
  pairwise_distances pos !! i = Some row ->
  d ∈ row <->
  exists j pi pj, j <> i /\ pos !! i = Some pi /\ pos !! j = Some pj
                  /\ d = norm (vsub pi pj).
Proof.
  unfold pairwise_distances.
  rewrite list_lookup_fmap, off_diag_lookup, cpos_lookup.
  destruct (pos !! i) as [pi|] eqn:Hpi; simpl; [|done].
  intros [= <-]. rewrite list_elem_of_fmap. split.
  - intros (v & -> & Hv). apply elem_of_list_delete in Hv as (j & Hne & Hj).
    rewrite list_lookup_fmap in Hj.
    destruct (pos !! j) as [pj|] eqn:Hpj; simpl in Hj; [|done].
    injection Hj as <-. by exists j, pi, pj.
  - intros (j & pi' & pj & Hne & [= <-] & Hpj & ->).
    exists (vsub pi pj). split; [done|].
    apply elem_of_list_delete. exists j. split; [done|].
    by rewrite list_lookup_fmap, Hpj.
Qed.

Lemma pairwise_distances_nonneg (pos : list (list R)) :
  Forall (Forall (fun d => 0 <= d)) (pairwise_distances pos).
Proof.
  unfold pairwise_distances. apply Forall_fmap, Forall_forall.
  intros row _. simpl. apply Forall_fmap, Forall_forall.
  intros v _. apply norm_nonneg.
Qed.

(** The separation computed from the cached table is the least distance
    between two different vehicles. *)
Lemma separation_min_pairwise (pos : list (list R)) (sep : R) :
  separation (pairwise_distances pos) = Some sep ->
  (exists i j pi pj, i <> j /\ pos !! i = Some pi /\ pos !! j = Some pj
                     /\ sep = norm (vsub pi pj))
  /\ (forall i j pi pj, i <> j -> pos !! i = Some pi -> pos !! j = Some pj ->
                        sep <= norm (vsub pi pj)).
Proof.
  intros Hs. apply separation_Some in Hs as [(row & Hrow & Hin) Hle]. split.
  - apply list_elem_of_lookup in Hrow as [i Hi].
    apply (pairwise_distances_row _ _ _ _ Hi) in Hin
      as (j & pi & pj & Hne & Hpi & Hpj & ->).
    exists i, j, pi, pj. by repeat split.
  - intros i j pi pj Hne Hpi Hpj.
    assert (Hsome : is_Some (pairwise_distances pos !! i)).
    { apply lookup_lt_is_Some. unfold pairwise_distances, off_diag, cpos.
      rewrite length_fmap, length_imap, length_fmap.
      by eapply lookup_lt_Some. }
    destruct Hsome as [row' Hrow'].
    apply (Hle row'); [by eapply list_elem_of_lookup_2|].
    apply (pairwise_distances_row _ _ _ _ Hrow').
    exists j, pi, pj. by repeat split.
Qed.

(** ** Shape of the result of [_compute_reward_and_done] *)

Lemma compute_reward_and_done_inv cfg self self' out :
  _compute_reward_and_done cfg self = Some (self', out) ->
  exists sep up mis,
    separation (drone_pdist self) = Some sep
    /\ payload_up self !! 2%nat = Some up
    /\ misbehave self = Some mis
    /\ reward out = replicate (num_drones cfg) (reward_value cfg self sep up)
    /\ terminated out = mis || hasnan self
    /\ truncated out = is_truncated cfg self
    /\ done out = terminated out || truncated out
    /\ self' = set_stats self (update_stats self (reward out) up).
Proof.
  unfold _compute_reward_and_done. intros Hc.
  destruct (separation (drone_pdist self)) as [sep|]; simpl in Hc; [|done].
  destruct (payload_up self !! 2%nat) as [up|]; simpl in Hc; [|done].
  destruct (misbehave self) as [mis|]; simpl in Hc; [|done].
  injection Hc as <- <-. exists sep, up, mis. by repeat split.
Qed.

Lemma compute_reward_and_done_intro cfg self sep up mis :
  separation (drone_pdist self) = Some sep ->
  payload_up self !! 2%nat = Some up ->
  misbehave self = Some mis ->
  exists self' out, _compute_reward_and_done cfg self = Some (self', out).
Proof.
  intros Hs Hu Hm. unfold _compute_reward_and_done.
  rewrite Hs, Hu, Hm. simpl. by eexists _, _.
Qed.

Lemma misbehave_is_Some (self : Instance) :
  Forall (fun row : list fval => (3 <= length row)%nat) (drone_states self) ->
  is_Some (misbehave self).
Proof.
  intros Hrows. unfold misbehave.
  assert (Hm : is_Some (mapM (fun row : list fval => row !! 2%nat)
                             (drone_states self))).
  { apply mapM_is_Some. eapply Forall_impl; [exact Hrows|].
    intros row Hlen. apply lookup_lt_is_Some. simpl in Hlen. lia. }
  destruct Hm as [alts ->]. simpl. by eexists.
Qed.

(** On tensors of the declared shapes, with at least two vehicles, the
    function returns. *)
Lemma compute_reward_and_done_total cfg self :
  (2 <= num_drones cfg)%nat -> wf_instance cfg self ->
  exists self' out, _compute_reward_and_done cfg self = Some (self', out).
Proof.
  intros Hn [Hrows Hcols Hup Hst _ _].
  destruct (separation_is_Some (drone_pdist self)) as [sep Hsep].
  { intros Hnil. rewrite Hnil in Hrows. simpl in Hrows. lia. }
  { eapply Forall_impl; [exact Hcols|]. intros row Hlen ->.
    simpl in Hlen. lia. }
  destruct (lookup_lt_is_Some_2 (payload_up self) 2) as [up Hu]; [lia|].
  destruct (misbehave_is_Some self Hst) as [mis Hmis].
  by eapply compute_reward_and_done_intro.
Qed.

Lemma batch_total cfg (envs : list Instance) :
  (2 <= num_drones cfg)%nat -> Forall (wf_instance cfg) envs ->
  is_Some (compute_reward_and_done_batch cfg envs).
Proof.
  intros Hn Hwf. apply mapM_is_Some.
  eapply Forall_impl; [exact Hwf|]. intros self Hs.
  destruct (compute_reward_and_done_total cfg self Hn Hs) as (s' & o & Hc).
  simpl. rewrite Hc. by eexists.
Qed.

Lemma batch_lookup cfg (envs : list Instance) outs e self :
  compute_reward_and_done_batch cfg envs = Some outs ->
  envs !! e = Some self ->
  exists r, outs !! e = Some r /\ _compute_reward_and_done cfg self = Some r.
Proof.
  intros Hb He. apply mapM_Some in Hb.
  destruct (Forall2_lookup_l _ _ _ _ _ Hb He) as (r & Hr & Hc). by exists r.
Qed.

Lemma batch_lookup_r cfg (envs : list Instance) outs e r :
  compute_reward_and_done_batch cfg envs = Some outs ->
  outs !! e = Some r ->
  exists self, envs !! e = Some self /\ _compute_reward_and_done cfg self = Some r.
Proof.
  intros Hb He. apply mapM_Some in Hb.
  destruct (Forall2_lookup_r _ _ _ _ _ Hb He) as (s & Hs & Hc). by exists s.
Qed.

Lemma example_norm : norm (vsub [0; 0; 1] [0.5; 0; 1]) = 0.5
                     /\ norm (vsub [0.5; 0; 1] [0; 0; 1]) = 0.5.
Proof.
  unfold norm, vsub, square; simpl. split.
  - replace (_ + _) with ((0.5) * (0.5)) by lra. apply sqrt_square. lra.
  - replace (_ + _) with ((0.5) * (0.5)) by lra. apply sqrt_square. lra.
Qed.

Lemma example_separation :
  separation (pairwise_distances Example.drone_pos) = Some 0.5.
Proof.
  destruct example_norm as [H1 H2].
  change (pairwise_distances Example.drone_pos)
    with [[norm (vsub [0; 0; 1] [0.5; 0; 1])];
          [norm (vsub [0.5; 0; 1] [0; 0; 1])]].
  rewrite H1, H2. unfold separation. simpl. f_equal. Rmin_case.
Qed.

Lemma example_wf : wf_instance Example.cfg Example.inst.
Proof.
  constructor; simpl; try reflexivity.
  - repeat constructor.
  - repeat constructor; simpl; lia.
Qed.

(** ** Separation reward *)

Lemma reward_separation_range cfg sep : 0 <= reward_separation cfg sep <= 1.
Proof. unfold reward_separation, clamp. Rmin_case. Qed.

Lemma ratio_bounds (c x : R) :
  0 < c ->
  (c <= x -> 1 <= x / c) /\ (x < c -> x / c < 1) /\ (0 <= x -> 0 <= x / c).
Proof.
  intros Hc.
  assert (Hi : 0 < / c) by (apply Rinv_0_lt_compat; lra).
  assert (He : c * / c = 1) by (apply Rinv_r; lra).
  unfold Rdiv. repeat split; intros; nra.
Qed.

Lemma reward_separation_one cfg sep :
  0 < safe_distance cfg -> safe_distance cfg <= sep ->
  reward_separation cfg sep = 1.
Proof.
  intros Hpos Hle. unfold reward_separation, clamp, square.
  destruct (ratio_bounds (safe_distance cfg) sep Hpos) as (Hge & _ & _).
  specialize (Hge Hle).
  assert (1 <= sep / safe_distance cfg * (sep / safe_distance cfg)) by nra.
  Rmin_case.
Qed.

Lemma reward_separation_below cfg sep :
  0 < safe_distance cfg -> 0 <= sep < safe_distance cfg ->
  reward_separation cfg sep < 1.
Proof.
  intros Hpos [H0 Hlt]. unfold reward_separation, clamp, square.
  destruct (ratio_bounds (safe_distance cfg) sep Hpos) as (_ & Hlt1 & Hge0).
  specialize (Hlt1 Hlt). specialize (Hge0 H0).
  assert (sep / safe_distance cfg * (sep / safe_distance cfg) < 1) by nra.
  Rmin_case.
Qed.

Lemma reward_separation_zero cfg : reward_separation cfg 0 = 0.
Proof.
  unfold reward_separation, clamp, square.
  replace (0 / safe_distance cfg * (0 / safe_distance cfg)) with 0
    by (unfold Rdiv; ring).
  Rmin_case.
Qed.

Lemma reward_separation_quarter cfg :
  safe_distance cfg = 0.5 -> reward_separation cfg 0.25 = 0.25.
Proof.
  intros Hs. unfold reward_separation, clamp, square. rewrite Hs.
  replace (0.25 / 0.5 * (0.25 / 0.5)) with 0.25 by lra. Rmin_case.
Qed.

(** The two cases around the threshold presuppose that it is positive: a
    negative [safe_distance] lies below every separation. *)
Lemma reward_separation_negative_threshold cfg :
  safe_distance cfg = -0.5 -> reward_separation cfg 0.25 = 0.25.
Proof.
  intros Hs. unfold reward_separation, clamp, square. rewrite Hs.
  replace (0.25 / -0.5 * (0.25 / -0.5)) with 0.25 by lra. Rmin_case.
Qed.



(** ** The composite reward *)

Lemma square_pow (x : R) : square x = x ^ 2.
Proof. unfold square. simpl. ring. Qed.

Lemma mean_mean_over (n : nat) (l : list R) :
  length l = n -> mean l = Spec.mean_over n l.
Proof. intros <-. reflexivity. Qed.

Lemma vdiv_take_zip (k : nat) (a : list R) (b : list (R * R)) :
  vdiv (take k a) ((fun lim => Rabs (fst lim)) <$> take k b)
  = (fun j : R * (R * R) => fst j / Rabs (fst (snd j))) <$> take k (zip a b).
Proof.
  revert a b. induction k as [|k IH]; intros a b; [done|].
  destruct a as [|x a], b as [|y b]; try done.
  unfold vdiv in *. simpl. f_equal. apply IH.
Qed.

Lemma reward_joint_limit_eq (self : Instance) :
  reward_joint_limit self
  = 0.5 * mean ((fun j : R * (R * R) => 1 - (fst j / Rabs (fst (snd j))) ^ 2)
                  <$> take 16 (zip (joint_positions self) (joint_limits self))).
Proof.
  unfold reward_joint_limit, scaled_joint_positions.
  rewrite vdiv_take_zip, <- list_fmap_compose. do 2 f_equal.
  apply list_fmap_ext. intros _ j _. simpl. by rewrite square_pow.
Qed.

Lemma reward_value_eq cfg self sep d0 d1 d2 d3 d4 d5 ux uy uz vx vy vz wx wy wz :
  wf_instance cfg self ->
  target_payload_rpose self = [d0; d1; d2; d3; d4; d5] ->
  payload_velocities self = [vx; vy; vz; wx; wy; wz] ->
  payload_up self = [ux; uy; uz] ->
  reward_value cfg self sep uz
  = Spec.reward cfg sep d0 d1 d2 d3 d4 d5 uz vx vy vz wx wy wz
      (zip (joint_positions self) (joint_limits self))
      (effort self) (throttle_difference self).
Proof.
  intros Hwf Hr Hv Hu. unfold reward_value, Spec.reward.
  assert (Hpose : reward_pose cfg self
    = exp (- (sqrt (d0 ^ 2 + d1 ^ 2 + d2 ^ 2 + d3 ^ 2 + d4 ^ 2 + d5 ^ 2)
              * reward_distance_scale cfg))).
  { unfold reward_pose, distance, norm. rewrite Hr. simpl.
    rewrite !square_pow. f_equal.
    rewrite <- Ropp_mult_distr_l. do 3 f_equal. ring. }
  assert (Hspin : reward_spin cfg self
    = reward_spin_weight cfg * exp (- (Rabs wx + Rabs wy + Rabs wz) ^ 2)).
  { unfold reward_spin, spinnage, last_n. rewrite Hv. simpl.
    rewrite square_pow. do 4 f_equal. ring. }
  assert (Hswing : reward_swing cfg self
    = reward_swing_weight cfg * exp (- (Rabs vx + Rabs vy + Rabs vz) ^ 2)).
  { unfold reward_swing, swing. rewrite Hv. simpl.
    rewrite square_pow. do 4 f_equal. ring. }
  assert (Heff : reward_effort cfg self
    = reward_effort_weight cfg
      * Spec.mean_over (num_drones cfg) ((fun e => exp (- e)) <$> effort self)).
  { unfold reward_effort. f_equal. apply mean_mean_over.
    rewrite length_fmap. apply Hwf. }
  assert (Hsm : mean (reward_action_smoothness cfg self)
    = Spec.mean_over (num_drones cfg)
        ((fun td => reward_action_smoothness_weight cfg * - td)
           <$> throttle_difference self)).
  { apply mean_mean_over. unfold reward_action_smoothness.
    rewrite length_fmap. apply Hwf. }
  assert (Hsep : reward_separation cfg sep
    = Rmin (Rmax ((sep / safe_distance cfg) ^ 2) 0) 1).
  { unfold reward_separation, clamp. by rewrite square_pow. }
  rewrite Hpose, Hspin, Hswing, Heff, Hsm, Hsep, reward_joint_limit_eq.
  unfold reward_up. by rewrite square_pow.
Qed.

(** C1.  On every batch of well-shaped instances the function returns, and
    for every instance and every agent the reward entry is
    [reward_separation * (reward_pose + reward_pose * (reward_up +
    reward_spin + reward_swing) + reward_joint_limit +
    mean(reward_action_smoothness) + reward_effort)] with the terms as the
    specification defines them. *)
Theorem reward_formula (cfg : Cfg) (envs : list Instance) :
  (2 <= num_drones cfg)%nat ->
  Forall (wf_instance cfg) envs ->
  exists outs,
    compute_reward_and_done_batch cfg envs = Some outs
    /\ forall e self, envs !! e = Some self ->
       exists self' out sep,
         outs !! e = Some (self', out)
         /\ separation (drone_pdist self) = Some sep
         /\ forall d0 d1 d2 d3 d4 d5 ux uy uz vx vy vz wx wy wz,
            target_payload_rpose self = [d0; d1; d2; d3; d4; d5] ->
            payload_velocities self = [vx; vy; vz; wx; wy; wz] ->
            payload_up self = [ux; uy; uz] ->
            forall i, (i < num_drones cfg)%nat ->
              reward out !! i
              = Some (Spec.reward cfg sep d0 d1 d2 d3 d4 d5 uz
                        vx vy vz wx wy wz
                        (zip (joint_positions self) (joint_limits self))
                        (effort self) (throttle_difference self)).
Proof.
  intros Hn Hwf. destruct (batch_total cfg envs Hn Hwf) as [outs Houts].
  exists outs. split; [done|]. intros e self He.
  destruct (batch_lookup _ _ _ _ _ Houts He) as ([self' out] & Ho & Hc).
  apply compute_reward_and_done_inv in Hc
    as (sep & up & mis & Hsep & Hup & _ & Hrew & _).
  exists self', out, sep. split; [done|]. split; [done|].
  intros d0 d1 d2 d3 d4 d5 ux uy uz vx vy vz wx wy wz Hr Hv Hu i Hi.
  rewrite Hu in Hup. injection Hup as <-.
  rewrite Hrew, lookup_replicate_2 by done. f_equal.
  eapply reward_value_eq; eauto.
  rewrite Forall_forall in Hwf. apply Hwf. by eapply list_elem_of_lookup_2.
Qed.

(** The example batch of one instance: the reward of the second agent. *)
Lemma reward_formula_witness :
  exists outs self' out,
    compute_reward_and_done_batch Example.cfg [Example.inst] = Some outs
    /\ outs !! 0%nat = Some (self', out)
    /\ reward out !! 1%nat
       = Some (Spec.reward Example.cfg 0.5 0 0 1.5 0 0 0 1 0.1 0 0 0 0 (-0.2)
                 [(0.1, (-1, 1)); (-0.2, (-2, 2))] [1; 2] [0.1; 0.3]).
Proof.
  destruct (reward_formula Example.cfg [Example.inst]) as (outs & Hb & Hall).
  - simpl. lia.
  - constructor; [exact example_wf | constructor].
  - destruct (Hall 0%nat Example.inst eq_refl)
      as (self' & out & sep & Ho & Hsep & Hrew).
    exists outs, self', out. split; [exact Hb|]. split; [exact Ho|].
    simpl in Hsep. rewrite example_separation in Hsep. injection Hsep as <-.
    apply (Hrew 0 0 1.5 0 0 0 0 0 1 0.1 0 0 0 0 (-0.2));
      try reflexivity.
    simpl. lia.
Defined.

(** ** The multiplicative gate *)

(** C4.  Whenever the separation reward of an instance is 0, the reward of
    every agent of that instance is 0, whatever the other terms are. *)
Theorem reward_gate (cfg : Cfg) (envs : list Instance) outs e self self' out sep :
  compute_reward_and_done_batch cfg envs = Some outs ->
  envs !! e = Some self ->
  outs !! e = Some (self', out) ->
  separation (drone_pdist self) = Some sep ->
  reward_separation cfg sep = 0 ->
  length (reward out) = num_drones cfg
  /\ forall i r, reward out !! i = Some r -> r = 0.
Proof.
  intros Hb He Ho Hsep Hzero.
  destruct (batch_lookup _ _ _ _ _ Hb He) as (r' & Ho' & Hc).
  rewrite Ho in Ho'. injection Ho' as <-.
  apply compute_reward_and_done_inv in Hc
    as (sep' & up & mis & Hsep' & _ & _ & Hrew & _).
  rewrite Hsep in Hsep'. injection Hsep' as <-.
  rewrite Hrew. split; [apply length_replicate|].
  intros i r Hi. apply lookup_replicate_1 in Hi as [-> _].
  unfold reward_value. rewrite Hzero. ring.
Qed.

Lemma collided_separation : separation (drone_pdist Collided.inst) = Some 0.
Proof. unfold separation. simpl. f_equal. Rmin_case. Qed.

Lemma collided_wf : wf_instance Example.cfg Collided.inst.
Proof.
  constructor; simpl; try reflexivity.
  - repeat constructor.
  - repeat constructor; simpl; lia.
Qed.

(** The collided instance: separation 0, hence reward 0 for both agents. *)
Lemma reward_gate_witness :
  exists outs self' out,
    compute_reward_and_done_batch Example.cfg [Collided.inst] = Some outs
    /\ outs !! 0%nat = Some (self', out)
    /\ length (reward out) = 2%nat
    /\ forall i r, reward out !! i = Some r -> r = 0.
Proof.
  destruct (batch_total Example.cfg [Collided.inst]) as [outs Hb].
  - simpl. lia.
  - constructor; [exact collided_wf | constructor].
  - destruct (batch_lookup _ _ _ 0%nat Collided.inst Hb eq_refl)
      as ([self' out] & Ho & _).
    exists outs, self', out. split; [exact Hb|]. split; [exact Ho|].
    apply (reward_gate Example.cfg [Collided.inst] outs 0 Collided.inst
             self' out 0 Hb eq_refl Ho collided_separation).
    apply reward_separation_zero.
Defined.

(** ** One reward for all agents *)

(** C10.  All agents of an instance receive the same reward: the tensor
    holds [n] copies of one value, in which the effort term and the
    action-smoothness term enter through their means over the agents. *)
Theorem reward_shared_by_agents (cfg : Cfg) (envs : list Instance) outs e self' out :
  compute_reward_and_done_batch cfg envs = Some outs ->
  outs !! e = Some (self', out) ->
  length (reward out) = num_drones cfg
  /\ (forall i j ri rj,
        reward out !! i = Some ri -> reward out !! j = Some rj -> ri = rj)
  /\ exists self sep up,
       envs !! e = Some self
       /\ separation (drone_pdist self) = Some sep
       /\ payload_up self !! 2%nat = Some up
       /\ forall i, (i < num_drones cfg)%nat ->
            reward out !! i
            = Some (reward_separation cfg sep
                    * (reward_pose cfg self
                       + reward_pose cfg self
                         * (reward_up up + reward_spin cfg self
                            + reward_swing cfg self)
                       + reward_joint_limit self
                       + mean ((fun td =>
                                  reward_action_smoothness_weight cfg * - td)
                                 <$> throttle_difference self)
                       + reward_effort_weight cfg
                         * mean ((fun x => exp (- x)) <$> effort self))).
Proof.
  intros Hb Ho.
  destruct (batch_lookup_r _ _ _ _ _ Hb Ho) as (self & He & Hc).
  apply compute_reward_and_done_inv in Hc
    as (sep & up & mis & Hsep & Hup & _ & Hrew & _).
  rewrite Hrew. split; [apply length_replicate|]. split.
  - intros i j ri rj Hi Hj.
    apply lookup_replicate_1 in Hi as [-> _].
    by apply lookup_replicate_1 in Hj as [-> _].
  - exists self, sep, up. repeat split; try done.
    intros i Hi. by rewrite lookup_replicate_2.
Qed.

(** The example batch: both agents receive the same value. *)
Lemma reward_shared_by_agents_witness :
  exists outs self' out r,
    compute_reward_and_done_batch Example.cfg [Example.inst] = Some outs
    /\ outs !! 0%nat = Some (self', out)
    /\ reward out !! 0%nat = Some r /\ reward out !! 1%nat = Some r.
Proof.
  destruct (batch_total Example.cfg [Example.inst]) as [outs Hb].
  - simpl. lia.
  - constructor; [exact example_wf | constructor].
  - destruct (batch_lookup _ _ _ 0%nat Example.inst Hb eq_refl)
      as ([self' out] & Ho & _).
    destruct (reward_shared_by_agents Example.cfg [Example.inst] outs 0
                self' out Hb Ho) as (_ & _ & self & sep & up & _ & _ & _ & Hi).
    exists outs, self', out. eexists. split; [exact Hb|]. split; [exact Ho|].
    split; apply Hi; simpl; lia.
Defined.

(** ** Termination *)

Lemma flt_below (a : fval) (c : R) : flt a c = true <-> below a c.
Proof.
  destruct a; simpl.
  - apply bool_decide_eq_true.
  - split; [discriminate | done].
  - split; done.
  - split; [discriminate | done].
Qed.

Lemma any_true {A} (p : A -> bool) (l : list A) :
  any p l = true <-> exists x, x ∈ l /\ p x = true.
Proof.
  induction l as [|y l IH]; simpl.
  - split; [done|]. intros (x & Hx & _). by apply elem_of_nil in Hx.
  - rewrite orb_true_iff, IH. split.
    + intros [Hy | (x & Hx & Hp)].
      * exists y. split; [apply list_elem_of_here | done].
      * exists x. split; [by apply list_elem_of_further | done].
    + intros (x & Hx & Hp). apply elem_of_cons in Hx as [-> | Hx].
      * by left.
      * right. by exists x.
Qed.

Lemma misbehave_true (self : Instance) (mis : bool) :
  misbehave self = Some mis -> mis = true <-> low_altitude self.
Proof.
  unfold misbehave, low_altitude. intros Hm.
  apply bind_Some in Hm as (alts & Halts & [= <-]).
  apply mapM_Some in Halts. rewrite any_true. split.
  - intros (a & Ha & Hlt). apply list_elem_of_lookup in Ha as [i Hi].
    destruct (Forall2_lookup_r _ _ _ _ _ Halts Hi) as (row & Hrow & Hr).
    exists row, a. split; [by eapply list_elem_of_lookup_2|].
    split; [done | by apply flt_below].
  - intros (row & a & Hrow & Hr & Hb).
    apply list_elem_of_lookup in Hrow as [i Hi].
    destruct (Forall2_lookup_l _ _ _ _ _ Halts Hi) as (a' & Ha' & Hr').
    simpl in Hr'. rewrite Hr in Hr'. injection Hr' as <-.
    exists a. split; [by eapply list_elem_of_lookup_2 | by apply flt_below].
Qed.

Lemma isnan_true (v : fval) : isnan v = true <-> v = NaN.
Proof. by destruct v. Qed.

Lemma hasnan_true (self : Instance) : hasnan self = true <-> has_nan self.
Proof.
  unfold hasnan, has_nan. rewrite any_true. split.
  - intros (b & Hb & ->). apply list_elem_of_fmap in Hb as (row & Hany & Hrow).
    symmetry in Hany. apply any_true in Hany as (v & Hv & Hn).
    apply isnan_true in Hn as ->. by exists row.
  - intros (row & Hrow & Hn). exists true. split; [|done].
    apply list_elem_of_fmap. exists row. split; [|done].
    symmetry. apply any_true. by exists NaN.
Qed.

(** A row built from a finite reading holds no NaN. *)
Lemma instance_of_no_nan rd ag jp jl td eff p s :
  ~ has_nan (instance_of rd ag jp jl td eff p s).
Proof.
  intros (row & Hrow & Hn). simpl in Hrow.
  apply list_elem_of_fmap in Hrow as (r & -> & _).
  by apply list_elem_of_fmap in Hn as (x & Hx & _).
Qed.

(** C2, as the code has it.  The terminated flag of an instance is true
    exactly when some vehicle's altitude is below 0.2 or some vehicle's state
    contains a NaN, and false otherwise. *)
Theorem terminated_iff (cfg : Cfg) (envs : list Instance) outs e self self' out :
  compute_reward_and_done_batch cfg envs = Some outs ->
  envs !! e = Some self ->
  outs !! e = Some (self', out) ->
  (terminated out = true <-> low_altitude self \/ has_nan self)
  /\ (terminated out = false <-> ~ (low_altitude self \/ has_nan self)).
Proof.
  intros Hb He Ho.
  destruct (batch_lookup _ _ _ _ _ Hb He) as (r' & Ho' & Hc).
  rewrite Ho in Ho'. injection Ho' as <-.
  apply compute_reward_and_done_inv in Hc
    as (sep & up & mis & _ & _ & Hmis & _ & Hterm & _).
  assert (Hiff : terminated out = true <-> low_altitude self \/ has_nan self).
  { rewrite Hterm, orb_true_iff, (misbehave_true self mis Hmis), hasnan_true.
    done. }
  split; [exact Hiff|].
  rewrite <- Hiff. symmetry. apply not_true_iff_false.
Qed.

(** The example batch: the flag of its instance. *)
Lemma terminated_iff_witness :
  exists outs self' out,
    compute_reward_and_done_batch Example.cfg [Example.inst] = Some outs
    /\ outs !! 0%nat = Some (self', out)
    /\ (terminated out = true
        <-> low_altitude Example.inst \/ has_nan Example.inst).
Proof.
  destruct (batch_total Example.cfg [Example.inst]) as [outs Hb].
  - simpl. lia.
  - constructor; [exact example_wf | constructor].
  - destruct (batch_lookup _ _ _ 0%nat Example.inst Hb eq_refl)
      as ([self' out] & Ho & _).
    exists outs, self', out. split; [exact Hb|]. split; [exact Ho|].
    exact (proj1 (terminated_iff Example.cfg [Example.inst] outs 0
                    Example.inst self' out Hb eq_refl Ho)).
Defined.

Lemma overflow_wf : wf_instance Example.cfg Overflow.inst.
Proof.
  constructor; simpl; try reflexivity.
  - repeat constructor.
  - repeat constructor; simpl; lia.
Qed.

Lemma overflow_misbehave : misbehave Overflow.inst = Some false.
Proof.
  unfold misbehave. simpl.
  rewrite !bool_decide_eq_false_2 by lra. reflexivity.
Qed.

(** C2 as stated fails: a state with an infinite entry is not finite, yet
    the instance is not terminated. *)
Lemma terminated_non_finite_counterexample :
  (low_altitude Overflow.inst \/ has_non_finite Overflow.inst)
  /\ exists self' out,
       _compute_reward_and_done Example.cfg Overflow.inst = Some (self', out)
       /\ terminated out = false.
Proof.
  split.
  - right. exists [Fin 0; Fin 0; Fin 1; PInf], PInf. split; [|split].
    + apply list_elem_of_here.
    + do 3 apply list_elem_of_further. apply list_elem_of_here.
    + reflexivity.
  - destruct (compute_reward_and_done_total Example.cfg Overflow.inst)
      as (self' & out & Hc); [simpl; lia | exact overflow_wf |].
    exists self', out. split; [exact Hc|].
    apply compute_reward_and_done_inv in Hc
      as (sep & up & mis & _ & _ & Hmis & _ & Hterm & _).
    rewrite overflow_misbehave in Hmis. injection Hmis as <-.
    rewrite Hterm. reflexivity.
Qed.

(** ** Done, terminated and truncated *)

Lemma wf_with_progress cfg p s snap :
  wf_instance cfg snap -> wf_instance cfg (with_progress p s snap).
Proof. intros [? ? ? ? ? ?]. by constructor. Qed.

Lemma is_truncated_true cfg self :
  is_truncated cfg self = true
  <-> (max_episode_length cfg <= progress_buf self)%Z.
Proof. unfold is_truncated. apply bool_decide_eq_true. Qed.

Lemma hasnan_false (self : Instance) : ~ has_nan self -> hasnan self = false.
Proof.
  intros Hn. apply not_true_iff_false. by rewrite hasnan_true.
Qed.

Lemma step_quiet cfg p s snap :
  (2 <= num_drones cfg)%nat -> quiet cfg snap ->
  exists self' out,
    step cfg p s snap = Some (self', out)
    /\ progress_buf self' = (p + 1)%Z
    /\ terminated out = false
    /\ truncated out = bool_decide (max_episode_length cfg <= p + 1)%Z
    /\ done out = truncated out.
Proof.
  intros Hn (Hwf & Hlow & Hnan). unfold step.
  destruct (compute_reward_and_done_total cfg (with_progress (p + 1) s snap))
    as (self' & out & Hc); [done | by apply wf_with_progress |].
  exists self', out. split; [done|].
  apply compute_reward_and_done_inv in Hc
    as (sep & up & mis & _ & _ & Hmis & _ & Hterm & Htr & Hdone & ->).
  assert (Hmf : mis = false).
  { apply not_true_iff_false. intros Ht.
    apply Hlow. by apply (misbehave_true _ _ Hmis). }
  assert (Hnf : hasnan (with_progress (p + 1) s snap) = false).
  { by apply hasnan_false. }
  rewrite Hmf, Hnf in Hterm. simpl in Hterm.
  repeat split; try done.
  by rewrite Hdone, Hterm.
Qed.

Lemma run_quiet cfg p s snaps :
  (2 <= num_drones cfg)%nat -> Forall (quiet cfg) snaps ->
  exists outs,
    run cfg p s snaps = Some outs
    /\ length outs = length snaps
    /\ forall k out, outs !! k = Some out ->
         terminated out = false
         /\ truncated out
            = bool_decide (max_episode_length cfg <= p + 1 + Z.of_nat k)%Z
         /\ done out = truncated out.
Proof.
  intros Hn Hq. revert p s.
  induction Hq as [|snap rest Hsnap _ IH]; intros p s.
  - exists []. split; [done|]. split; [done|]. intros k out Hk.
    by rewrite lookup_nil in Hk.
  - destruct (step_quiet cfg p s snap Hn Hsnap)
      as (self' & out & Hstep & Hp & Hterm & Htr & Hdone).
    destruct (IH (progress_buf self') (stats self')) as (outs & Hrun & Hlen & Hall).
    exists (out :: outs). simpl. rewrite Hstep. simpl. rewrite Hrun. simpl.
    split; [done|]. split; [by rewrite Hlen|].
    intros [|k] out' Hk; simpl in Hk.
    + injection Hk as <-. rewrite Z.add_0_r. done.
    + destruct (Hall k out' Hk) as (Ht & Htr' & Hd).
      repeat split; try done. rewrite Htr', Hp.
      apply bool_decide_ext. lia.
Qed.

(** C5.  In every output, done is terminated OR truncated, the two flags are
    reported beside it, and truncated holds exactly when the step counter has
    reached [max_episode_length]; an instance stepped [max_episode_length]
    times after a reset, with neither termination condition firing, is
    truncated and not terminated at the last of these steps, and not
    truncated before. *)
Theorem done_flags (cfg : Cfg) :
  (forall envs outs e self self' out,
     compute_reward_and_done_batch cfg envs = Some outs ->
     envs !! e = Some self ->
     outs !! e = Some (self', out) ->
     done out = terminated out || truncated out
     /\ (truncated out = true
         <-> (max_episode_length cfg <= progress_buf self)%Z))
  /\ (forall s snaps,
        (2 <= num_drones cfg)%nat ->
        (1 <= max_episode_length cfg)%Z ->
        Z.of_nat (length snaps) = max_episode_length cfg ->
        Forall (quiet cfg) snaps ->
        exists outs,
          run cfg 0 s snaps = Some outs
          /\ length outs = length snaps
          /\ (forall k out, outs !! k = Some out ->
                terminated out = false
                /\ (truncated out = true <-> S k = length snaps))
          /\ exists out, last outs = Some out
                         /\ truncated out = true
                         /\ terminated out = false
                         /\ done out = true).
Proof.
  split.
  - intros envs outs e self self' out Hb He Ho.
    destruct (batch_lookup _ _ _ _ _ Hb He) as (r' & Ho' & Hc).
    rewrite Ho in Ho'. injection Ho' as <-.
    apply compute_reward_and_done_inv in Hc
      as (sep & up & mis & _ & _ & _ & _ & _ & Htr & Hdone & _).
    split; [done|]. rewrite Htr. apply is_truncated_true.
  - intros s snaps Hn Hmax Hlen Hq.
    destruct (run_quiet cfg 0 s snaps Hn Hq) as (outs & Hrun & Hlo & Hall).
    exists outs. split; [done|]. split; [done|].
    assert (Hk : forall k out, outs !! k = Some out ->
              terminated out = false
              /\ (truncated out = true <-> S k = length snaps)).
    { intros k out Ho. destruct (Hall k out Ho) as (Ht & Htr & _).
      split; [done|]. rewrite Htr, bool_decide_eq_true.
      apply lookup_lt_Some in Ho. lia. }
    split; [exact Hk|].
    destruct (lookup_lt_is_Some_2 outs (length snaps - 1)) as [out Ho]; [lia|].
    exists out. destruct (Hk _ _ Ho) as [Ht Htr].
    destruct (Hall _ _ Ho) as (_ & _ & Hd).
    assert (Htrue : truncated out = true) by (apply Htr; lia).
    split.
    + rewrite last_lookup. rewrite <- Ho. f_equal. lia.
    + split; [done|]. split; [done|]. by rewrite Hd.
Qed.

Lemma example_quiet : quiet Example.cfg Example.inst.
Proof.
  split; [exact example_wf|]. split.
  - intros (row & a & Hrow & Ha & Hb).
    repeat (apply elem_of_cons in Hrow as [-> | Hrow];
            [injection Ha as <-; simpl in Hb; lra |]).
    by apply elem_of_nil in Hrow.
  - intros (row & Hrow & Hn).
    repeat (apply elem_of_cons in Hrow as [-> | Hrow];
            [repeat (apply elem_of_cons in Hn as [Hn | Hn]; [discriminate|]);
             by apply elem_of_nil in Hn |]).
    by apply elem_of_nil in Hrow.
Qed.

(** Three quiet steps with [max_episode_length = 3]. *)
Lemma done_flags_witness :
  exists outs out,
    run Example.cfg 0 Example.zero_row
        [Example.inst; Example.inst; Example.inst] = Some outs
    /\ last outs = Some out
    /\ truncated out = true /\ terminated out = false /\ done out = true.
Proof.
  destruct (proj2 (done_flags Example.cfg) Example.zero_row
              [Example.inst; Example.inst; Example.inst])
    as (outs & Hrun & _ & _ & out & Hlast & Htr & Hte & Hd).
  - simpl. lia.
  - simpl. lia.
  - reflexivity.
  - do 3 (constructor; [exact example_quiet|]). constructor.
  - exists outs, out. repeat split; assumption.
Defined.

(** ** Exponential smoothing of the statistics *)

Lemma lerp_alpha (old sample : R) :
  lerp old sample (1 - alpha) = 0.8 * old + 0.2 * sample.
Proof. unfold lerp, alpha. lra. Qed.

(** C7.  Every step replaces each of pos_error, heading_alignment,
    uprightness and (per agent) action_smoothness by
    [0.8 * old + 0.2 * sample], the samples being the cached position error,
    the cached heading alignment, the third entry of the payload up vector
    and the negated throttle difference. *)
Theorem stats_smoothing (cfg : Cfg) (envs : list Instance) outs e self self' out :
  compute_reward_and_done_batch cfg envs = Some outs ->
  envs !! e = Some self ->
  outs !! e = Some (self', out) ->
  st_pos_error (stats self')
  = 0.8 * st_pos_error (stats self) + 0.2 * pos_error self
  /\ st_heading_alignment (stats self')
     = 0.8 * st_heading_alignment (stats self) + 0.2 * heading_alignment self
  /\ (exists up, payload_up self !! 2%nat = Some up
                 /\ st_uprightness (stats self')
                    = 0.8 * st_uprightness (stats self) + 0.2 * up)
  /\ (forall i old td,
        st_action_smoothness (stats self) !! i = Some old ->
        throttle_difference self !! i = Some td ->
        st_action_smoothness (stats self') !! i
        = Some (0.8 * old + 0.2 * (- td))).
Proof.
  intros Hb He Ho.
  destruct (batch_lookup _ _ _ _ _ Hb He) as (r' & Ho' & Hc).
  rewrite Ho in Ho'. injection Ho' as <-.
  apply compute_reward_and_done_inv in Hc
    as (sep & up & mis & _ & Hup & _ & _ & _ & _ & _ & ->).
  simpl. split; [apply lerp_alpha|]. split; [apply lerp_alpha|]. split.
  - exists up. split; [done | apply lerp_alpha].
  - intros i old td Hold Htd.
    rewrite lookup_zip_with, Hold, Htd. simpl. f_equal. apply lerp_alpha.
Qed.

(** The example batch: statistics that start at zero. *)
Lemma stats_smoothing_witness :
  exists outs self' out,
    compute_reward_and_done_batch Example.cfg [Example.inst] = Some outs
    /\ outs !! 0%nat = Some (self', out)
    /\ st_pos_error (stats self') = 0.8 * 0 + 0.2 * 1.5
    /\ st_action_smoothness (stats self') !! 1%nat
       = Some (0.8 * 0 + 0.2 * Ropp 0.3).
Proof.
  destruct (batch_total Example.cfg [Example.inst]) as [outs Hb].
  - simpl. lia.
  - constructor; [exact example_wf | constructor].
  - destruct (batch_lookup _ _ _ 0%nat Example.inst Hb eq_refl)
      as ([self' out] & Ho & _).
    destruct (stats_smoothing Example.cfg [Example.inst] outs 0 Example.inst
                self' out Hb eq_refl Ho) as (Hpos & _ & _ & Hact).
    exists outs, self', out. split; [exact Hb|]. split; [exact Ho|].
    split; [exact Hpos|]. exact (Hact 1%nat 0 0.3 eq_refl eq_refl).
Defined.

(** ** The payload observation *)

(** C6.  Within one instance the payload observation is the same for all
    agents: every one of the [n] entries is the one payload state that is
    also reported as [state_payload]. *)
Theorem obs_payload_shared `{QuatOps} (cfg : Cfg) (target_heading : list R)
    (progress : Z) (rd : Reading) :
  length (obs_payload (_compute_state_and_obs cfg target_heading progress rd))
  = num_drones cfg
  /\ (forall i oi,
        obs_payload (_compute_state_and_obs cfg target_heading progress rd) !! i
        = Some oi ->
        oi = [payload_state cfg target_heading progress rd]
        /\ oi = state_payload
                  (_compute_state_and_obs cfg target_heading progress rd))
  /\ (forall i j oi oj,
        obs_payload (_compute_state_and_obs cfg target_heading progress rd) !! i
        = Some oi ->
        obs_payload (_compute_state_and_obs cfg target_heading progress rd) !! j
        = Some oj ->
        oi = oj).
Proof.
  simpl. split; [apply length_replicate|]. split.
  - intros i oi Hi. by apply lookup_replicate_1 in Hi as [-> _].
  - intros i j oi oj Hi Hj.
    apply lookup_replicate_1 in Hi as [-> _].
    by apply lookup_replicate_1 in Hj as [-> _].
Qed.

(** ** Reset: the rows that are written *)

Lemma norm_index_lt (E : nat) (i : Z) (k : nat) :
  norm_index E i = Some k -> (k < E)%nat.
Proof.
  unfold norm_index. repeat case_bool_decide; intros [= <-]; lia.
Qed.

Lemma norm_index_is_Some (E : nat) (i : Z) :
  (- Z.of_nat E <= i < Z.of_nat E)%Z -> is_Some (norm_index E i).
Proof.
  intros Hi. unfold norm_index. repeat case_bool_decide; try by eexists.
  lia.
Qed.

Lemma zero_stats_all_zero (s : Stats) : all_zero (zero_stats s).
Proof.
  unfold all_zero, zero_stats; simpl.
  repeat split; try done; apply Forall_fmap, Forall_forall; done.
Qed.

Lemma zero_stats_idemp (s : Stats) : zero_stats (zero_stats s) = zero_stats s.
Proof.
  unfold zero_stats; simpl. by rewrite <- !list_fmap_compose.
Qed.

Section ResetFold.
Variable f : nat -> EnvRow -> EnvRow.

Lemma foldl_alter_lookup (l : list (nat * nat)) (envs : list EnvRow) (k : nat) :
  foldl (fun acc (jk : nat * nat) => alter (f (fst jk)) (snd jk) acc) envs l !! k
  = (fun row => writes_at f k row l) <$> envs !! k.
Proof.
  revert envs. induction l as [|[j k'] l IH]; intros envs; simpl.
  - by destruct (envs !! k).
  - rewrite IH, list_lookup_alter. unfold writes_at. simpl.
    destruct (decide (k' = k)) as [-> | Hne]; [|done].
    by destruct (envs !! k).
Qed.

Lemma foldl_alter_length (l : list (nat * nat)) (envs : list EnvRow) :
  length (foldl (fun acc (jk : nat * nat) => alter (f (fst jk)) (snd jk) acc)
                envs l)
  = length envs.
Proof.
  revert envs. induction l as [|[j k'] l IH]; intros envs; simpl; [done|].
  by rewrite IH, length_alter.
Qed.

Lemma writes_at_none (k : nat) (row : EnvRow) (l : list (nat * nat)) :
  Forall (fun jk : nat * nat => snd jk <> k) l -> writes_at f k row l = row.
Proof.
  intros Hl. revert row. induction Hl as [|[j k'] l Hne _ IH]; intros row.
  - done.
  - unfold writes_at in *. simpl in *. by rewrite decide_False.
Qed.

Lemma writes_at_snoc (k : nat) (row : EnvRow) (l : list (nat * nat)) j k' :
  writes_at f k row (l ++ [(j, k')])
  = if decide (k' = k) then f j (writes_at f k row l) else writes_at f k row l.
Proof. unfold writes_at. by rewrite foldl_app. Qed.

(** A row that is written ends as the image of its last write. *)
Lemma writes_at_some (k : nat) (row : EnvRow) (l : list (nat * nat)) :
  Exists (fun jk : nat * nat => snd jk = k) l ->
  exists j l', (j, k) ∈ l /\ writes_at f k row l = f j (writes_at f k row l').
Proof.
  induction l as [|[j k'] l IH] using rev_ind; intros Hex.
  - by apply Exists_nil in Hex.
  - rewrite writes_at_snoc. destruct (decide (k' = k)) as [-> | Hne].
    + exists j, l. split; [|done].
      apply elem_of_app. right. apply list_elem_of_here.
    + apply Exists_app in Hex as [Hex | Hex].
      * destruct (IH Hex) as (j' & l' & Hin & Heq).
        exists j', l'. split; [|done]. apply elem_of_app. by left.
      * apply Exists_cons in Hex as [Hk | Hex]; [done|].
        by apply Exists_nil in Hex.
Qed.

End ResetFold.

Lemma imap_pair_elem (ids : list nat) (j k : nat) :
  (j, k) ∈ imap pair ids <-> ids !! j = Some k.
Proof.
  rewrite list_elem_of_lookup. split.
  - intros (i & Hi). apply list_lookup_imap_Some in Hi as (y & Hy & [= -> ->]).
    done.
  - intros Hj. exists j. apply list_lookup_imap_Some. by exists k.
Qed.

Lemma mapM_norm_index_elem (E : nat) (env_ids : list Z) (ids : list nat) (k : nat) :
  mapM (norm_index E) env_ids = Some ids ->
  k ∈ ids <-> addressed E env_ids k.
Proof.
  intros Hm. apply mapM_Some in Hm. unfold addressed.
  rewrite list_elem_of_lookup. split.
  - intros (j & Hj).
    destruct (Forall2_lookup_r _ _ _ _ _ Hm Hj) as (i & Hi & Hn).
    exists i. split; [by eapply list_elem_of_lookup_2 | done].
  - intros (i & Hi & Hn). apply list_elem_of_lookup in Hi as [j Hj].
    destruct (Forall2_lookup_l _ _ _ _ _ Hm Hj) as (k' & Hk' & Hn').
    rewrite Hn in Hn'. injection Hn' as <-. by exists j.
Qed.

Lemma addressed_writes (ids : list nat) (k : nat) :
  Exists (fun jk : nat * nat => snd jk = k) (imap pair ids) <-> k ∈ ids.
Proof.
  rewrite Exists_exists. split.
  - intros ([j k'] & Hin & Hk). simpl in Hk. subst k'.
    apply imap_pair_elem in Hin. by eapply list_elem_of_lookup_2.
  - intros Hin. apply list_elem_of_lookup in Hin as [j Hj].
    exists (j, k). split; [by apply imap_pair_elem | done].
Qed.

Section ResetProperties.
Context `{QuatOps}.

Lemma reset_idx_total cfg (env_ids : list Z) draws (envs : list EnvRow) :
  Forall (fun i => (- Z.of_nat (length envs) <= i < Z.of_nat (length envs))%Z)
         env_ids ->
  exists ids envs',
    mapM (norm_index (length envs)) env_ids = Some ids
    /\ _reset_idx cfg env_ids draws envs = Some envs'.
Proof.
  intros Hr.
  assert (Hm : is_Some (mapM (norm_index (length envs)) env_ids)).
  { apply mapM_is_Some. eapply Forall_impl; [exact Hr|].
    intros i. apply norm_index_is_Some. }
  destruct Hm as [ids Hids]. exists ids. unfold _reset_idx. rewrite Hids.
  simpl. by eexists.
Qed.

Lemma writes_at_stats cfg draws (k : nat) (row : EnvRow) (l : list (nat * nat)) :
  row_stats (writes_at (fun j => reset_row (sample_reset cfg (draws j))) k row l)
  = row_stats row
  \/ row_stats (writes_at (fun j => reset_row (sample_reset cfg (draws j))) k row l)
     = zero_stats (row_stats row).
Proof.
  induction l as [|[j k'] l IH] using rev_ind; [by left|].
  rewrite writes_at_snoc. destruct (decide (k' = k)); [|done].
  right. simpl. destruct IH as [-> | ->]; [done | apply zero_stats_idemp].
Qed.

Lemma writes_at_position cfg draws (k : nat) (row : EnvRow) (l : list (nat * nat)) :
  envs_position
    (writes_at (fun j => reset_row (sample_reset cfg (draws j))) k row l)
  = envs_position row.
Proof.
  induction l as [|[j k'] l IH] using rev_ind; [done|].
  rewrite writes_at_snoc. by destruct (decide (k' = k)).
Qed.

(** What [_reset_idx] leaves in each row: an addressed row is the image
    under [reset_row] of the samples of one of the entries that address it,
    every other row is untouched. *)
Lemma reset_idx_rows cfg (env_ids : list Z) draws (envs envs' : list EnvRow) :
  _reset_idx cfg env_ids draws envs = Some envs' ->
  length envs' = length envs
  /\ forall k row, envs !! k = Some row ->
       exists row', envs' !! k = Some row'
         /\ (addressed (length envs) env_ids k ->
             exists j r0,
               (j < length env_ids)%nat
               /\ row' = reset_row (sample_reset cfg (draws j)) r0
               /\ envs_position r0 = envs_position row
               /\ (row_stats r0 = row_stats row
                   \/ row_stats r0 = zero_stats (row_stats row)))
         /\ (~ addressed (length envs) env_ids k -> row' = row).
Proof.
  unfold _reset_idx. intros Hr.
  apply bind_Some in Hr as (ids & Hids & [= <-]).
  split.
  { apply (foldl_alter_length
             (fun j => reset_row (sample_reset cfg (draws j)))). }
  intros k row Hk.
  rewrite (foldl_alter_lookup
             (fun j => reset_row (sample_reset cfg (draws j)))), Hk. simpl.
  eexists. split; [done|]. split.
  - intros Ha. apply (mapM_norm_index_elem _ _ _ _ Hids) in Ha.
    apply addressed_writes in Ha.
    destruct (writes_at_some (fun j => reset_row (sample_reset cfg (draws j)))
                k row _ Ha) as (j & l' & Hin & Heq).
    exists j, (writes_at (fun j => reset_row (sample_reset cfg (draws j)))
                 k row l').
    split; [|split; [exact Heq|split]].
    + apply imap_pair_elem, lookup_lt_Some in Hin.
      apply mapM_Some, Forall2_length in Hids. lia.
    + apply writes_at_position.
    + apply writes_at_stats.
  - intros Hna. apply writes_at_none. apply Forall_forall.
    intros [j k'] Hin Hk'. simpl in Hk'. subst k'. apply Hna.
    apply (mapM_norm_index_elem _ _ _ _ Hids).
    apply imap_pair_elem in Hin. by eapply list_elem_of_lookup_2.
Qed.

End ResetProperties.

(** ** Reset: the running statistics *)


(** ** Reset: the sampled poses *)

Lemma is_draw_3 (u : list R) :
  is_draw 3 u ->
  exists u0 u1 u2, u = [u0; u1; u2]
                   /\ 0 <= u0 < 1 /\ 0 <= u1 < 1 /\ 0 <= u2 < 1.
Proof.
  intros [Hlen Hall].
  destruct u as [|u0 [|u1 [|u2 [|? ?]]]]; try discriminate.
  exists u0, u1, u2. split; [done|].
  apply Forall_cons in Hall as [H0 Hall].
  apply Forall_cons in Hall as [H1 Hall].
  by apply Forall_cons in Hall as [H2 _].
Qed.

Section SampleProperties.
Context `{QuatOps}.

Lemma sample_pos_box cfg d :
  is_draw 3 (u_pos d) ->
  exists x y z, rs_pos (sample_reset cfg d) = [x; y; z]
                /\ -3 <= x <= 3 /\ -3 <= y <= 3 /\ 1 <= z <= 2.5.
Proof.
  intros Hd. destruct (is_draw_3 _ Hd) as (u0 & u1 & u2 & Hu & H0 & H1 & H2).
  simpl. rewrite Hu. eexists _, _, _. split; [reflexivity|].
  repeat split; lra.
Qed.

Lemma sample_rpy cfg d :
  is_draw 3 (u_rpy d) ->
  exists yaw, rs_rpy (sample_reset cfg d) = [0; 0; yaw] /\ 0 <= yaw <= 2 * PI.
Proof.
  intros Hd. destruct (is_draw_3 _ Hd) as (u0 & u1 & u2 & Hu & H0 & H1 & H2).
  pose proof PI_RGT_0 as Hpi.
  exists (0 * PI + u2 * (2 * PI - 0 * PI)). split.
  - simpl. rewrite Hu. unfold uniform_sample, vadd, vmul, vsub. simpl.
    f_equal; [ring | f_equal; ring].
  - split; nra.
Qed.

Lemma sample_target_rpy cfg d :
  is_draw 3 (u_target_rpy d) ->
  rs_payload_target_rpy (sample_reset cfg d) = [0; 0; 0].
Proof.
  intros Hd. destruct (is_draw_3 _ Hd) as (u0 & u1 & u2 & Hu & _).
  simpl. rewrite Hu. unfold uniform_sample, vadd, vmul, vsub. simpl.
  repeat (f_equal; try ring).
Qed.

Lemma sample_target_heading cfg d :
  is_draw 3 (u_target_rpy d) ->
  rs_payload_target_heading (sample_reset cfg d) = identity_heading.
Proof.
  intros Hd. pose proof (sample_target_rpy cfg d Hd) as Hrpy.
  simpl in *. unfold identity_heading. by rewrite Hrpy.
Qed.

(** C9.  Every pose sampled at reset has its position in the box from
    [-3, -3, 1] to [3, 3, 2.5], roll and pitch 0 and a yaw between 0 and
    [2 * PI]; the sampled target orientation is zero and the target heading is
    the heading of the zero orientation.  The pose written for an addressed
    instance is such a sample, shifted by the instance's origin, and its
    cached target heading is that fixed heading. *)
Theorem reset_samples (cfg : Cfg) :
  (forall d, valid_draws d ->
     (exists x y z, rs_pos (sample_reset cfg d) = [x; y; z]
                    /\ -3 <= x <= 3 /\ -3 <= y <= 3 /\ 1 <= z <= 2.5)
     /\ (exists yaw, rs_rpy (sample_reset cfg d) = [0; 0; yaw]
                     /\ 0 <= yaw <= 2 * PI)
     /\ rs_payload_target_rpy (sample_reset cfg d) = [0; 0; 0]
     /\ rs_payload_target_heading (sample_reset cfg d) = identity_heading)
  /\ (forall env_ids draws envs envs' k row',
        (forall j, valid_draws (draws j)) ->
        _reset_idx cfg env_ids draws envs = Some envs' ->
        addressed (length envs) env_ids k ->
        envs' !! k = Some row' ->
        payload_target_heading row' = identity_heading
        /\ exists x y z yaw,
             group_pose row'
             = (vadd [x; y; z] (envs_position row'),
                euler_to_quaternion [0; 0; yaw])
             /\ -3 <= x <= 3 /\ -3 <= y <= 3 /\ 1 <= z <= 2.5
             /\ 0 <= yaw <= 2 * PI).
Proof.
  split.
  - intros d (Hp & Hr & Ht & _). split; [by apply sample_pos_box|].
    split; [by apply sample_rpy|].
    split; [by apply sample_target_rpy | by apply sample_target_heading].
  - intros env_ids draws envs envs' k row' Hd Hreset Ha Hk'.
    destruct (reset_idx_rows cfg env_ids draws envs envs' Hreset) as [Hlen Hrows].
    destruct (lookup_lt_is_Some_2 envs k) as [row Hk].
    { rewrite <- Hlen. by eapply lookup_lt_Some. }
    destruct (Hrows k row Hk) as (row'' & Hk'' & Hin & _).
    rewrite Hk' in Hk''. injection Hk'' as <-.
    destruct (Hin Ha) as (j & r0 & _ & -> & _ & _).
    destruct (Hd j) as (Hp & Hr & Ht & _).
    split; [by apply sample_target_heading|].
    destruct (sample_pos_box cfg (draws j) Hp) as (x & y & z & Hpos & Hb).
    destruct (sample_rpy cfg (draws j) Hr) as (yaw & Hrpy & Hy).
    exists x, y, z, yaw. split; [|tauto].
    simpl in *. by rewrite Hpos, Hrpy.
Qed.

End SampleProperties.

(** With this implementation the heading of the zero orientation is the
    first basis vector. *)
Lemma std_identity_heading : @identity_heading Std.quat_ops = [1; 0; 0].
Proof.
  unfold identity_heading. simpl.
  unfold Std.std_quat_axis, Std.std_euler_to_quaternion.
  replace (0 * 0.5) with 0 by lra. rewrite cos_0, sin_0.
  unfold Std.quat_rotate, vadd, vmul, tsum. simpl.
  repeat (f_equal; try lra).
Qed.

Lemma std_draws_valid : valid_draws Std.draws.
Proof.
  unfold valid_draws, is_draw. simpl.
  repeat split; try lra; repeat (constructor; [lra|]); constructor.
Qed.

(** One sample with the implementation [Std.quat_ops]. *)
Lemma reset_samples_witness :
  (exists x y z,
     rs_pos (@sample_reset Std.quat_ops Example.cfg Std.draws) = [x; y; z]
     /\ -3 <= x <= 3 /\ -3 <= y <= 3 /\ 1 <= z <= 2.5)
  /\ rs_payload_target_heading (@sample_reset Std.quat_ops Example.cfg Std.draws)
     = @identity_heading Std.quat_ops.
Proof.
  destruct (proj1 (@reset_samples Std.quat_ops Example.cfg) Std.draws
              std_draws_valid) as (Hpos & _ & _ & Hhead).
  split; [exact Hpos | exact Hhead].
Defined.

Lemma std_addressed_0 : addressed 3 [0; -1]%Z 0.
Proof. exists 0%Z. split; [apply list_elem_of_here | reflexivity]. Qed.

Lemma std_not_addressed_1 : ~ addressed 3 [0; -1]%Z 1.
Proof.
  intros (i & Hi & Hn).
  apply elem_of_cons in Hi as [-> | Hi]; [discriminate|].
  apply elem_of_cons in Hi as [-> | Hi]; [discriminate|].
  by apply elem_of_nil in Hi.
Qed.


(** * Further properties of the environment *)

(** ** Sums, means and exponentials *)

Lemma tsum_le (b : R) (l : list R) :
  Forall (fun x => x <= b) l -> tsum l <= b * INR (length l).
Proof.
  induction 1 as [|x l Hx _ IH].
  - simpl. lra.
  - change (length (x :: l)) with (S (length l)). rewrite S_INR.
    change (tsum (x :: l)) with (x + tsum l). lra.
Qed.

Lemma tsum_ge (a : R) (l : list R) :
  Forall (fun x => a <= x) l -> a * INR (length l) <= tsum l.
Proof.
  induction 1 as [|x l Hx _ IH].
  - simpl. lra.
  - change (length (x :: l)) with (S (length l)). rewrite S_INR.
    change (tsum (x :: l)) with (x + tsum l). lra.
Qed.

Lemma INR_length_pos {A} (l : list A) : l <> [] -> 0 < INR (length l).
Proof.
  destruct l; [done|]. intros _. apply lt_0_INR. simpl. lia.
Qed.

Lemma mean_le (b : R) (l : list R) :
  l <> [] -> Forall (fun x => x <= b) l -> mean l <= b.
Proof.
  intros Hne Hall. pose proof (tsum_le b l Hall) as Hs.
  pose proof (INR_length_pos l Hne) as Hpos.
  assert (Hi : 0 < / INR (length l)) by (by apply Rinv_0_lt_compat).
  unfold mean, Rdiv. set (L := INR (length l)) in *.
  assert (Hb : b - tsum l * / L = (b * L - tsum l) * / L) by (field; lra).
  assert (0 <= (b * L - tsum l) * / L) by (apply Rmult_le_pos; lra).
  lra.
Qed.

Lemma mean_ge (a : R) (l : list R) :
  l <> [] -> Forall (fun x => a <= x) l -> a <= mean l.
Proof.
  intros Hne Hall. pose proof (tsum_ge a l Hall) as Hs.
  pose proof (INR_length_pos l Hne) as Hpos.
  assert (Hi : 0 < / INR (length l)) by (by apply Rinv_0_lt_compat).
  unfold mean, Rdiv. set (L := INR (length l)) in *.
  assert (Ha : tsum l * / L - a = (tsum l - a * L) * / L) by (field; lra).
  assert (0 <= (tsum l - a * L) * / L) by (apply Rmult_le_pos; lra).
  lra.
Qed.

Lemma mean_replicate (n : nat) (v : R) :
  (1 <= n)%nat -> mean (replicate n v) = v.
Proof.
  intros Hn. unfold mean. rewrite length_replicate.
  assert (Hs : tsum (replicate n v) = INR n * v).
  { clear Hn. induction n as [|n IH]; [simpl; lra|].
    rewrite S_INR. change (tsum (replicate (S n) v)) with (v + tsum (replicate n v)).
    rewrite IH. ring. }
  rewrite Hs. field. apply not_0_INR. lia.
Qed.

Lemma exp_le (x y : R) : x <= y -> exp x <= exp y.
Proof.
  intros [Hlt | ->]; [|lra]. left. by apply exp_increasing.
Qed.

Lemma exp_neg_square_range (x : R) : 0 < exp (- square x) <= 1.
Proof.
  split; [apply exp_pos|]. rewrite <- exp_0. apply exp_le.
  unfold square. nra.
Qed.

Lemma tsum_zero (l : list R) : Forall (fun x => x = 0) l -> tsum l = 0.
Proof. induction 1 as [|x l -> _ IH]; simpl; [done | rewrite IH; lra]. Qed.

(** ** The pose term *)

(** X1.  The pose reward is positive; with a non-negative distance scale it
    is at most 1, and of two instances the one farther from its target never
    has the larger pose reward. *)
Theorem reward_pose_bounds (cfg : Cfg) (self : Instance) :
  0 < reward_pose cfg self
  /\ (0 <= reward_distance_scale cfg ->
      reward_pose cfg self <= 1
      /\ forall other, distance self <= distance other ->
           reward_pose cfg other <= reward_pose cfg self).
Proof.
  split; [apply exp_pos|]. intros Hs. split.
  - unfold reward_pose. rewrite <- exp_0. apply exp_le.
    pose proof (norm_nonneg (target_payload_rpose self)). unfold distance. nra.
  - intros other Hd. unfold reward_pose. apply exp_le. nra.
Qed.

(** ** The upright term *)

(** X2.  For an up component between -1 and 1 the upright reward lies
    between 0 and 1; it is 1 exactly for an upright payload and 0 exactly for
    an inverted one. *)
Theorem reward_up_range (up : R) :
  -1 <= up <= 1 ->
  0 <= reward_up up <= 1
  /\ (reward_up up = 1 <-> up = 1)
  /\ (reward_up up = 0 <-> up = -1).
Proof.
  intros Hup. unfold reward_up, square. repeat split; nra.
Qed.

(** The up vector of the example. *)
Lemma reward_up_range_witness :
  0 <= reward_up 1 <= 1 /\ (reward_up 1 = 1 <-> 1 = 1).
Proof.
  destruct (reward_up_range 1) as (Hr & H1 & _); [lra|].
  split; [exact Hr | exact H1].
Defined.

(** ** The spin and swing terms *)

(** X3.  With non-negative weights the spin and swing rewards lie between 0
    and their weights; a payload without angular velocity receives the whole
    spin weight, one without linear velocity the whole swing weight. *)
Theorem reward_spin_swing_bounds (cfg : Cfg) (self : Instance) :
  (0 <= reward_spin_weight cfg ->
   0 <= reward_spin cfg self <= reward_spin_weight cfg)
  /\ (0 <= reward_swing_weight cfg ->
      0 <= reward_swing cfg self <= reward_swing_weight cfg)
  /\ (Forall (fun w => w = 0) (last_n 3 (payload_velocities self)) ->
      reward_spin cfg self = reward_spin_weight cfg)
  /\ (Forall (fun v => v = 0) (take 3 (payload_velocities self)) ->
      reward_swing cfg self = reward_swing_weight cfg).
Proof.
  assert (Hrest : forall l : list R,
            Forall (fun x => x = 0) l -> exp (- square (tsum (Rabs <$> l))) = 1).
  { intros l Hl. rewrite (tsum_zero (Rabs <$> l)).
    - unfold square. replace (- (0 * 0)) with 0 by ring. apply exp_0.
    - apply Forall_fmap. eapply Forall_impl; [exact Hl|].
      intros x ->. simpl. apply Rabs_R0. }
  split; [|split; [|split]].
  - intros Hw. unfold reward_spin.
    pose proof (exp_neg_square_range (spinnage self)). nra.
  - intros Hw. unfold reward_swing.
    pose proof (exp_neg_square_range (swing self)). nra.
  - intros Hz. unfold reward_spin, spinnage. rewrite (Hrest _ Hz). ring.
  - intros Hz. unfold reward_swing, swing. rewrite (Hrest _ Hz). ring.
Qed.

(** ** The joint-limit term *)

Lemma ratio_within (q L : R) : 0 < L -> Rabs q <= L -> -1 <= q / L <= 1.
Proof.
  intros HL Hq.
  pose proof (Rle_abs q) as H1. pose proof (Rle_abs (- q)) as H2.
  rewrite Rabs_Ropp in H2.
  assert (Hi : 0 < / L) by (by apply Rinv_0_lt_compat).
  assert (Ha : q / L + 1 = (q + L) * / L) by (field; lra).
  assert (Hb : 1 - q / L = (L - q) * / L) by (field; lra).
  assert (0 <= (q + L) * / L) by (apply Rmult_le_pos; lra).
  assert (0 <= (L - q) * / L) by (apply Rmult_le_pos; lra).
  lra.
Qed.



(** ** Monotonicity of the separation term *)

(** X5.  For a positive threshold the separation reward never decreases
    when the vehicles move apart. *)
Theorem reward_separation_monotone (cfg : Cfg) (s1 s2 : R) :
  0 < safe_distance cfg -> 0 <= s1 <= s2 ->
  reward_separation cfg s1 <= reward_separation cfg s2.
Proof.
  intros Hpos [H0 H12]. unfold reward_separation, clamp, square.
  assert (Hi : 0 < / safe_distance cfg) by (by apply Rinv_0_lt_compat).
  assert (0 <= s1 / safe_distance cfg) by (apply Rmult_le_pos; lra).
  assert (s1 / safe_distance cfg <= s2 / safe_distance cfg).
  { unfold Rdiv. apply Rmult_le_compat_r; lra. }
  assert (s1 / safe_distance cfg * (s1 / safe_distance cfg)
          <= s2 / safe_distance cfg * (s2 / safe_distance cfg)) by nra.
  Rmin_case.
Qed.

Lemma reward_separation_monotone_witness :
  reward_separation Example.cfg 0.25 <= reward_separation Example.cfg 0.5.
Proof.
  apply reward_separation_monotone; simpl; lra.
Defined.

(** ** The payload at its target *)

Lemma vsub_self (v : list R) : vsub v v = (fun _ => 0) <$> v.
Proof.
  unfold vsub. induction v as [|x v IH]; [done|].
  simpl. rewrite IH. f_equal. ring.
Qed.

Lemma norm_zero (l : list R) : Forall (fun x => x = 0) l -> norm l = 0.
Proof.
  intros Hl. unfold norm. rewrite tsum_zero; [apply sqrt_0|].
  apply Forall_fmap. eapply Forall_impl; [exact Hl|].
  intros x ->. simpl. unfold square. ring.
Qed.

(** X6.  When the payload stands at the target position with the target
    heading, the cached relative pose is the zero vector, the position error
    is 0 and the pose reward of the step is 1. *)
Theorem at_target_reward_pose `{QuatOps} (cfg : Cfg) (target_heading : list R)
    (progress : Z) (rd : Reading) jp jl td eff (s : Stats) :
  rd_payload_pos rd = payload_target_pos ->
  quat_axis (rd_payload_rot rd) 0 = target_heading ->
  length target_heading = 3%nat ->
  ag_target_payload_rpose (_compute_state_and_obs cfg target_heading progress rd)
  = [0; 0; 0; 0; 0; 0]
  /\ ag_pos_error (_compute_state_and_obs cfg target_heading progress rd) = 0
  /\ reward_pose cfg
       (instance_of rd (_compute_state_and_obs cfg target_heading progress rd)
                    jp jl td eff progress s)
     = 1.
Proof.
  intros Hpos Hhead Hlen.
  assert (Hr : ag_target_payload_rpose
                 (_compute_state_and_obs cfg target_heading progress rd)
               = [0; 0; 0; 0; 0; 0]).
  { change (ag_target_payload_rpose
              (_compute_state_and_obs cfg target_heading progress rd))
      with (vsub payload_target_pos (rd_payload_pos rd)
            ++ vsub target_heading (quat_axis (rd_payload_rot rd) 0)).
    rewrite Hpos, Hhead, !vsub_self.
    destruct target_heading as [|a [|b [|c [|? ?]]]]; done. }
  split; [exact Hr|]. split.
  - change (ag_pos_error (_compute_state_and_obs cfg target_heading progress rd))
      with (norm (take 3 (ag_target_payload_rpose
                            (_compute_state_and_obs cfg target_heading progress rd)))).
    rewrite Hr. apply norm_zero. simpl. by repeat constructor.
  - unfold reward_pose, distance.
    change (target_payload_rpose (instance_of _ _ _ _ _ _ _ _))
      with (ag_target_payload_rpose
              (_compute_state_and_obs cfg target_heading progress rd)).
    rewrite Hr, norm_zero by (by repeat constructor).
    replace (- 0 * reward_distance_scale cfg) with 0 by ring. apply exp_0.
Qed.

Lemma std_heading_identity : Std.std_quat_axis [1; 0; 0; 0] 0 = [1; 0; 0].
Proof.
  unfold Std.std_quat_axis, Std.quat_rotate, vadd, vmul, tsum. simpl.
  repeat (f_equal; try lra).
Qed.

(** The hovering example with the implementation [Std.quat_ops]. *)
Lemma at_target_reward_pose_witness :
  ag_pos_error Hover.ag = 0 /\ reward_pose Example.cfg Hover.inst = 1.
Proof.
  destruct (@at_target_reward_pose Std.quat_ops Example.cfg [1; 0; 0] 1
              Hover.rd [0.1; -0.2] [(-1, 1); (-2, 2)] [0.1; 0.3] [1; 2]
              Example.zero_row eq_refl std_heading_identity eq_refl)
    as (_ & Hp & Hr).
  split; [exact Hp | exact Hr].
Defined.

(** ** Position error and distance *)

Lemma tsum_cons (x : R) (l : list R) : tsum (x :: l) = x + tsum l.
Proof. reflexivity. Qed.

Lemma tsum_squares_nonneg (l : list R) : 0 <= tsum (square <$> l).
Proof.
  induction l as [|x l IH]; [simpl; lra|].
  rewrite fmap_cons, tsum_cons.
  assert (0 <= square x) by (unfold square; nra). lra.
Qed.

Lemma tsum_squares_take (k : nat) (l : list R) :
  tsum (square <$> take k l) <= tsum (square <$> l).
Proof.
  revert k. induction l as [|x l IH]; intros k.
  - rewrite take_nil. simpl. lra.
  - destruct k as [|k].
    + apply (tsum_squares_nonneg (x :: l)).
    + specialize (IH k). rewrite firstn_cons, !fmap_cons, !tsum_cons. lra.
Qed.

(** X7.  The cached position error never exceeds the distance that enters
    the pose reward; with a non-negative distance scale the pose reward is
    therefore at most [exp(-pos_error * distance_scale)]. *)
Theorem pos_error_le_distance `{QuatOps} (cfg : Cfg) (target_heading : list R)
    (progress : Z) (rd : Reading) jp jl td eff (s : Stats) :
  ag_pos_error (_compute_state_and_obs cfg target_heading progress rd)
  <= distance (instance_of rd
                 (_compute_state_and_obs cfg target_heading progress rd)
                 jp jl td eff progress s)
  /\ (0 <= reward_distance_scale cfg ->
      reward_pose cfg
        (instance_of rd (_compute_state_and_obs cfg target_heading progress rd)
                     jp jl td eff progress s)
      <= exp (- ag_pos_error
                  (_compute_state_and_obs cfg target_heading progress rd)
              * reward_distance_scale cfg)).
Proof.
  assert (Hle : ag_pos_error (_compute_state_and_obs cfg target_heading progress rd)
                <= distance (instance_of rd
                     (_compute_state_and_obs cfg target_heading progress rd)
                     jp jl td eff progress s)).
  { unfold distance, norm. simpl. apply sqrt_le_1_alt.
    apply tsum_squares_take. }
  split; [exact Hle|]. intros Hs. unfold reward_pose. apply exp_le. nra.
Qed.

(** ** Return and episode length *)

(** X8.  With at least one vehicle a step adds the reward of the instance,
    which all its agents share, to every entry of the return statistic, sets
    the episode length to the step counter and leaves the counter itself
    alone. *)
Theorem return_accumulates (cfg : Cfg) (self self' : Instance) (out : Output) :
  (1 <= num_drones cfg)%nat ->
  _compute_reward_and_done cfg self = Some (self', out) ->
  exists v,
    reward out = replicate (num_drones cfg) v
    /\ st_return (stats self') = (fun x => x + v) <$> st_return (stats self)
    /\ st_episode_len (stats self') = IZR (progress_buf self)
    /\ progress_buf self' = progress_buf self.
Proof.
  intros Hn Hc. apply compute_reward_and_done_inv in Hc
    as (sep & up & mis & _ & _ & _ & Hrew & _ & _ & _ & ->).
  exists (reward_value cfg self sep up). split; [done|]. simpl.
  by rewrite Hrew, mean_replicate.
Qed.

(** The example instance: its return starts at zero. *)
Lemma return_accumulates_witness :
  exists self' out v,
    _compute_reward_and_done Example.cfg Example.inst = Some (self', out)
    /\ reward out = [v; v]
    /\ st_return (stats self') = [0 + v; 0 + v]
    /\ st_episode_len (stats self') = 1.
Proof.
  destruct (compute_reward_and_done_total Example.cfg Example.inst)
    as (self' & out & Hc); [simpl; lia | exact example_wf |].
  destruct (return_accumulates Example.cfg Example.inst self' out)
    as (v & Hr & Hret & Hlen & _); [simpl; lia | exact Hc |].
  exists self', out, v. split; [exact Hc|]. split; [exact Hr|].
  split; [exact Hret | exact Hlen].
Defined.

(** ** Smoothed statistics stay between the old value and the sample *)

Lemma lerp_between (old sample : R) :
  Rmin old sample <= lerp old sample (1 - alpha) <= Rmax old sample.
Proof. rewrite lerp_alpha. Rmin_case. Qed.

(** X9.  After a step each smoothed statistic lies between its old value
    and the new sample; bounds that hold for both therefore hold for the
    statistic. *)
Theorem smoothing_between (cfg : Cfg) (self self' : Instance) (out : Output) :
  _compute_reward_and_done cfg self = Some (self', out) ->
  Rmin (st_pos_error (stats self)) (pos_error self)
  <= st_pos_error (stats self')
  <= Rmax (st_pos_error (stats self)) (pos_error self)
  /\ Rmin (st_heading_alignment (stats self)) (heading_alignment self)
     <= st_heading_alignment (stats self')
     <= Rmax (st_heading_alignment (stats self)) (heading_alignment self)
  /\ (exists up, payload_up self !! 2%nat = Some up
        /\ Rmin (st_uprightness (stats self)) up
           <= st_uprightness (stats self')
           <= Rmax (st_uprightness (stats self)) up)
  /\ (forall i new, st_action_smoothness (stats self') !! i = Some new ->
        exists old td,
          st_action_smoothness (stats self) !! i = Some old
          /\ throttle_difference self !! i = Some td
          /\ Rmin old (- td) <= new <= Rmax old (- td)).
Proof.
  intros Hc. apply compute_reward_and_done_inv in Hc
    as (sep & up & mis & _ & Hup & _ & _ & _ & _ & _ & ->).
  simpl. split; [apply lerp_between|]. split; [apply lerp_between|]. split.
  - exists up. split; [done | apply lerp_between].
  - intros i new Hi. apply lookup_zip_with_Some in Hi
      as (old & td & -> & Hold & Htd).
    exists old, td. split; [done|]. split; [done | apply lerp_between].
Qed.

Lemma smoothing_between_witness :
  exists self' out,
    _compute_reward_and_done Example.cfg Example.inst = Some (self', out)
    /\ Rmin 0 1.5 <= st_pos_error (stats self') <= Rmax 0 1.5.
Proof.
  destruct (compute_reward_and_done_total Example.cfg Example.inst)
    as (self' & out & Hc); [simpl; lia | exact example_wf |].
  exists self', out. split; [exact Hc|].
  exact (proj1 (smoothing_between Example.cfg Example.inst self' out Hc)).
Defined.

(** ** The first step after a reset *)

(** X10.  On statistics that a reset has zeroed, the first step leaves 0.2
    times the sample in each smoothed statistic and the reward of the step in
    every entry of the return. *)
Theorem first_step_after_reset (cfg : Cfg) (self self' : Instance) (out : Output)
    (s0 : Stats) :
  (1 <= num_drones cfg)%nat ->
  stats self = zero_stats s0 ->
  _compute_reward_and_done cfg self = Some (self', out) ->
  st_pos_error (stats self') = 0.2 * pos_error self
  /\ st_heading_alignment (stats self') = 0.2 * heading_alignment self
  /\ (forall i new, st_action_smoothness (stats self') !! i = Some new ->
        exists td, throttle_difference self !! i = Some td
                   /\ new = 0.2 * - td)
  /\ (forall i ret r, st_return (stats self') !! i = Some ret ->
        reward out !! i = Some r -> ret = r).
Proof.
  intros Hn Hz Hc. apply compute_reward_and_done_inv in Hc
    as (sep & up & mis & _ & _ & _ & Hrew & _ & _ & _ & ->).
  simpl. rewrite Hz. simpl. rewrite !lerp_alpha.
  split; [lra|]. split; [lra|]. split.
  - intros i new Hi. apply lookup_zip_with_Some in Hi
      as (old & td & -> & Hold & Htd).
    exists td. split; [done|]. rewrite lerp_alpha.
    apply list_lookup_fmap_Some in Hold as (x & -> & _). lra.
  - intros i ret r Hi Hr. rewrite Hrew in Hr, Hi.
    apply lookup_replicate_1 in Hr as [-> _].
    rewrite mean_replicate in Hi by done.
    apply list_lookup_fmap_Some in Hi as (x & -> & Hx).
    apply list_lookup_fmap_Some in Hx as (y & -> & _). lra.
Qed.

Lemma first_step_after_reset_witness :
  exists self' out,
    _compute_reward_and_done Example.cfg Example.inst = Some (self', out)
    /\ st_pos_error (stats self') = 0.2 * 1.5.
Proof.
  destruct (compute_reward_and_done_total Example.cfg Example.inst)
    as (self' & out & Hc); [simpl; lia | exact example_wf |].
  exists self', out. split; [exact Hc|].
  refine (proj1 (first_step_after_reset Example.cfg Example.inst self' out
                   Example.zero_row _ eq_refl Hc)).
  simpl. lia.
Defined.

(** ** When [_compute_reward_and_done] raises *)

Lemma tmin_is_Some_iff (l : list R) : is_Some (tmin l) <-> l <> [].
Proof.
  split; [|apply tmin_is_Some]. intros [m Hm] ->. discriminate.
Qed.

Lemma separation_is_Some_iff (pd : list (list R)) :
  is_Some (separation pd)
  <-> pd <> [] /\ Forall (fun row => row <> []) pd.
Proof.
  split; [|intros [? ?]; by apply separation_is_Some].
  unfold separation. intros [sep Hs].
  apply bind_Some in Hs as (mins & Hmins & Hmin).
  apply mapM_Some in Hmins. split.
  - intros ->. apply Forall2_nil_inv_l in Hmins as ->. discriminate.
  - apply Forall_forall. intros row Hrow.
    apply list_elem_of_lookup in Hrow as [i Hi].
    destruct (Forall2_lookup_l _ _ _ _ _ Hmins Hi) as (m & _ & Hm).
    apply tmin_is_Some_iff. by exists m.
Qed.

Lemma misbehave_is_Some_iff (self : Instance) :
  is_Some (misbehave self)
  <-> Forall (fun row : list fval => (3 <= length row)%nat) (drone_states self).
Proof.
  split; [|apply misbehave_is_Some].
  unfold misbehave. intros [mis Hm].
  apply bind_Some in Hm as (alts & Halts & _). apply mapM_Some in Halts.
  apply Forall_forall. intros row Hrow.
  apply list_elem_of_lookup in Hrow as [i Hi].
  destruct (Forall2_lookup_l _ _ _ _ _ Halts Hi) as (a & _ & Ha).
  apply lookup_lt_Some in Ha. lia.
Qed.


(** ** Termination on finite vehicle states *)

(** X12.  For an instance built from finite readings the terminated flag
    is true exactly when the altitude of some vehicle is below 0.2. *)
Theorem terminated_finite_iff (cfg : Cfg) (rd : Reading) (ag : Aggregate)
    jp jl td eff p (s : Stats) (self' : Instance) (out : Output) :
  _compute_reward_and_done cfg (instance_of rd ag jp jl td eff p s)
  = Some (self', out) ->
  terminated out = true
  <-> exists st z, st ∈ rd_drone_states rd /\ st !! 2%nat = Some z /\ z < 0.2.
Proof.
  intros Hc. apply compute_reward_and_done_inv in Hc
    as (sep & up & mis & _ & _ & Hmis & _ & Hterm & _).
  rewrite Hterm, (hasnan_false _ (instance_of_no_nan rd ag jp jl td eff p s)).
  rewrite orb_false_r, (misbehave_true _ _ Hmis). unfold low_altitude. simpl.
  split.
  - intros (row & a & Hrow & Ha & Hb).
    apply list_elem_of_fmap in Hrow as (st & -> & Hst).
    apply list_lookup_fmap_Some in Ha as (z & -> & Hz). by exists st, z.
  - intros (st & z & Hst & Hz & Hlt).
    exists (Fin <$> st), (Fin z). split; [by apply list_elem_of_fmap_2|].
    split; [by rewrite list_lookup_fmap, Hz | done].
Qed.

Lemma hover_wf : wf_instance Example.cfg Hover.inst.
Proof.
  constructor; simpl; try reflexivity.
  - repeat constructor.
  - repeat constructor; simpl; lia.
Qed.

(** The hovering example: both vehicles fly at altitude 1. *)
Lemma terminated_finite_iff_witness :
  exists self' out,
    _compute_reward_and_done Example.cfg Hover.inst = Some (self', out)
    /\ (terminated out = true
        <-> exists st z, st ∈ rd_drone_states Hover.rd
                         /\ st !! 2%nat = Some z /\ z < 0.2).
Proof.
  destruct (compute_reward_and_done_total Example.cfg Hover.inst)
    as (self' & out & Hc); [simpl; lia | exact hover_wf |].
  exists self', out. split; [exact Hc|].
  exact (terminated_finite_iff Example.cfg Hover.rd Hover.ag
           [0.1; -0.2] [(-1, 1); (-2, 2)] [0.1; 0.3] [1; 2] 1
           Example.zero_row self' out Hc).
Defined.

(** ** Shapes of the observations *)

Lemma length_vsub (a b : list R) :
  length (vsub a b) = Nat.min (length a) (length b).
Proof. unfold vsub. apply length_zip_with. Qed.

Lemma length_one_hot (n i : nat) : length (one_hot n i) = n.
Proof. unfold one_hot. by rewrite length_fmap, length_seq. Qed.

(** X13.  On readings of the declared shapes the payload state has
    [payload_state_dim] entries, 22 or 26 with the time encoding, and every
    agent's payload observation is one row of that length. *)
Theorem obs_payload_dim `{QuatOps} (cfg : Cfg) (state_dim : nat)
    (target_heading : list R) (progress : Z) (rd : Reading) :
  wf_reading cfg state_dim rd ->
  length target_heading = 3%nat ->
  length (quat_axis (rd_payload_rot rd) 0) = 3%nat ->
  length (quat_axis (rd_payload_rot rd) 2) = 3%nat ->
  length (payload_state cfg target_heading progress rd) = payload_state_dim cfg
  /\ (payload_state_dim cfg = 22%nat \/ payload_state_dim cfg = 26%nat)
  /\ forall i o,
       obs_payload (_compute_state_and_obs cfg target_heading progress rd) !! i
       = Some o ->
       exists row, o = [row] /\ length row = payload_state_dim cfg.
Proof.
  intros [_ _ Hpos Hrot Hvels] Hth Hh Hu.
  assert (Hlen : length (payload_state cfg target_heading progress rd)
                 = payload_state_dim cfg).
  { unfold payload_state, payload_state_dim, payload_target_pos.
    rewrite !length_app, !length_vsub, Hpos, Hrot, Hvels, Hth, Hh, Hu.
    destruct (time_encoding cfg); [rewrite length_replicate|]; reflexivity. }
  split; [exact Hlen|]. split.
  - unfold payload_state_dim. destruct (time_encoding cfg); [by right | by left].
  - intros i o Hi. simpl in Hi. apply lookup_replicate_1 in Hi as [-> _].
    by eexists.
Qed.

Lemma hover_wf_reading : wf_reading Example.cfg 13 Hover.rd.
Proof. constructor; try reflexivity. repeat constructor. Qed.

(** The hovering example, with the time encoding: 26 entries. *)
Lemma obs_payload_dim_witness :
  length (@payload_state Std.quat_ops Example.cfg [1; 0; 0] 1 Hover.rd)
  = 26%nat.
Proof.
  exact (proj1 (@obs_payload_dim Std.quat_ops Example.cfg 13 [1; 0; 0] 1
                  Hover.rd hover_wf_reading eq_refl eq_refl eq_refl)).
Defined.

Lemma obs_self_lookup `{QuatOps} cfg th p rd i o :
  obs_self (_compute_state_and_obs cfg th p rd) !! i = Some o ->
  exists st,
    rd_drone_states rd !! i = Some st
    /\ o = [(Ropp <$> vsub (rd_payload_pos rd) (take 3 st))
            ++ drop 3 st ++ one_hot (num_drones cfg) i].
Proof.
  simpl. intros Hi.
  apply list_lookup_imap_Some in Hi as ([pr0 st0] & Hz & ->).
  apply lookup_zip_with_Some in Hz as (pr & st & Heq & Hpr & Hst).
  injection Heq as -> ->.
  rewrite !list_lookup_fmap, Hst in Hpr. simpl in Hpr.
  injection Hpr as <-. by exists st.
Qed.

(** X14.  On readings of the declared shapes every agent's own observation
    is one row of [drone_state_dim] entries, the length of a vehicle state
    plus the number of vehicles, and there is one such observation per
    vehicle. *)
Theorem obs_self_dim `{QuatOps} (cfg : Cfg) (state_dim : nat)
    (target_heading : list R) (progress : Z) (rd : Reading) :
  wf_reading cfg state_dim rd ->
  (3 <= state_dim)%nat ->
  length (obs_self (_compute_state_and_obs cfg target_heading progress rd))
  = num_drones cfg
  /\ forall i o,
       obs_self (_compute_state_and_obs cfg target_heading progress rd) !! i
       = Some o ->
       exists row, o = [row] /\ length row = drone_state_dim cfg state_dim.
Proof.
  intros [Hn Hst Hpos _ _] HD. split.
  - simpl. rewrite length_imap, length_zip_with, !length_fmap, Hn. lia.
  - intros i o Hi. apply obs_self_lookup in Hi as (st & Hsti & ->).
    eexists. split; [reflexivity|].
    rewrite Forall_forall in Hst.
    specialize (Hst st (list_elem_of_lookup_2 _ _ _ Hsti)). simpl in Hst.
    rewrite !length_app, length_fmap, length_vsub, length_take, length_drop,
      length_one_hot, Hpos, Hst.
    unfold drone_state_dim. lia.
Qed.

Lemma obs_self_dim_witness :
  length (obs_self Hover.ag) = 2%nat
  /\ forall i o, obs_self Hover.ag !! i = Some o ->
       exists row, o = [row] /\ length row = drone_state_dim Example.cfg 13.
Proof.
  apply (@obs_self_dim Std.quat_ops Example.cfg 13 [1; 0; 0] 1 Hover.rd
           hover_wf_reading).
  lia.
Defined.

Lemma one_hot_lookup (n i j : nat) :
  (j < n)%nat -> one_hot n i !! j = Some (if decide (i = j) then 1 else 0).
Proof.
  intros Hj. unfold one_hot. rewrite list_lookup_fmap, lookup_seq_lt by done.
  reflexivity.
Qed.

(** X15.  The own observations of two different agents of an instance
    differ: each ends in the row of the identity matrix for its agent. *)
Theorem obs_self_distinct `{QuatOps} (cfg : Cfg) (target_heading : list R)
    (progress : Z) (rd : Reading) (i j : nat) oi oj :
  length (rd_drone_states rd) = num_drones cfg ->
  obs_self (_compute_state_and_obs cfg target_heading progress rd) !! i
  = Some oi ->
  obs_self (_compute_state_and_obs cfg target_heading progress rd) !! j
  = Some oj ->
  i <> j ->
  oi <> oj.
Proof.
  intros Hn Hi Hj Hne Heq.
  apply obs_self_lookup in Hi as (sti & Hsti & ->).
  apply obs_self_lookup in Hj as (stj & Hstj & ->).
  injection Heq as Heq. rewrite !app_assoc in Heq.
  apply app_inj_2 in Heq as [_ Hoh]; [|by rewrite !length_one_hot].
  assert (Hi : (i < num_drones cfg)%nat).
  { rewrite <- Hn. by eapply lookup_lt_Some. }
  assert (Hl : one_hot (num_drones cfg) i !! i
               = one_hot (num_drones cfg) j !! i) by (by rewrite Hoh).
  rewrite !one_hot_lookup in Hl by done.
  rewrite decide_True in Hl by done.
  rewrite decide_False in Hl by done.
  injection Hl as Hl. lra.
Qed.

Lemma obs_self_distinct_witness :
  exists o0 o1,
    obs_self Hover.ag !! 0%nat = Some o0
    /\ obs_self Hover.ag !! 1%nat = Some o1
    /\ o0 <> o1.
Proof.
  eexists _, _. split; [reflexivity|]. split; [reflexivity|].
  apply (@obs_self_distinct Std.quat_ops Example.cfg [1; 0; 0] 1 Hover.rd
           0 1); try reflexivity.
  lia.
Defined.

Lemma off_diag_row {A} (a : list (list A)) (i : nat) (row : list A) :
  off_diag a !! i = Some row ->
  exists r, a !! i = Some r /\ row = delete i r.
Proof.
  rewrite off_diag_lookup. destruct (a !! i) as [r|]; [|done].
  intros [= <-]. by exists r.
Qed.

(** X16.  On readings of the declared shapes, with states of at least 13
    entries, the observation of the others has one table per vehicle, each
    with [n - 1] rows of [13 + 1] entries. *)
Theorem obs_others_shape `{QuatOps} (cfg : Cfg) (state_dim : nat)
    (target_heading : list R) (progress : Z) (rd : Reading) :
  wf_reading cfg state_dim rd ->
  (13 <= state_dim)%nat ->
  length (obs_others (_compute_state_and_obs cfg target_heading progress rd))
  = num_drones cfg
  /\ forall i o,
       obs_others (_compute_state_and_obs cfg target_heading progress rd) !! i
       = Some o ->
       length o = (num_drones cfg - 1)%nat
       /\ Forall (fun row => length row = obs_others_dim) o.
Proof.
  intros [Hn Hst _ _ _] HD.
  set (pos := take 3 <$> rd_drone_states rd).
  set (sts := (fun st : list R => take 10 (drop 3 st)) <$> rd_drone_states rd).
  assert (Hpos : length pos = num_drones cfg).
  { unfold pos. by rewrite length_fmap. }
  assert (Hsts : length sts = num_drones cfg).
  { unfold sts. by rewrite length_fmap. }
  split.
  - simpl. fold pos sts.
    rewrite !length_zip_with, length_fmap. unfold others, off_diag, cpos.
    rewrite !length_imap, length_fmap, length_replicate. lia.
  - intros i o Hi. simpl in Hi. fold pos sts in Hi.
    apply lookup_zip_with_Some in Hi as ([rp pd] & ot & -> & Hz & Hot).
    apply lookup_zip_Some in Hz as [Hrp Hpd]. simpl.
    rewrite list_lookup_fmap, Hrp in Hpd. injection Hpd as <-.
    apply off_diag_row in Hrp as (crow & Hcrow & ->).
    rewrite cpos_lookup in Hcrow.
    destruct (pos !! i) as [pi|] eqn:Hpi; [|done].
    injection Hcrow as <-.
    apply off_diag_row in Hot as (srow & Hsrow & ->).
    apply lookup_replicate_1 in Hsrow as [-> Hi].
    assert (Hin : (i < num_drones cfg)%nat) by lia.
    split.
    + rewrite !length_zip_with, length_fmap, !length_delete, length_fmap.
      * lia.
      * apply lookup_lt_is_Some. lia.
      * apply lookup_lt_is_Some. rewrite length_fmap. lia.
    + apply Forall_forall. intros row Hrow.
      apply list_elem_of_lookup in Hrow as [k Hk].
      apply lookup_zip_with_Some in Hk as ([v d] & st & -> & Hvd & Hs).
      apply lookup_zip_Some in Hvd as [Hv _]. simpl.
      apply list_elem_of_lookup_2, elem_of_list_delete in Hv as (j & _ & Hv).
      apply list_lookup_fmap_Some in Hv as (pj & -> & Hpj).
      apply list_elem_of_lookup_2, elem_of_list_delete in Hs as (j' & _ & Hs).
      unfold sts in Hs. apply list_lookup_fmap_Some in Hs as (st0 & -> & Hst0).
      unfold pos in Hpi, Hpj.
      apply list_lookup_fmap_Some in Hpi as (sti & -> & Hsti).
      apply list_lookup_fmap_Some in Hpj as (stj & -> & Hstj).
      rewrite Forall_forall in Hst.
      pose proof (Hst _ (list_elem_of_lookup_2 _ _ _ Hsti)) as Hli.
      pose proof (Hst _ (list_elem_of_lookup_2 _ _ _ Hstj)) as Hlj.
      pose proof (Hst _ (list_elem_of_lookup_2 _ _ _ Hst0)) as Hl0.
      simpl in Hli, Hlj, Hl0.
      rewrite length_app, length_vsub. simpl.
      rewrite !length_take, length_drop.
      unfold obs_others_dim. lia.
Qed.

Lemma obs_others_shape_witness :
  length (obs_others Hover.ag) = 2%nat
  /\ forall i o, obs_others Hover.ag !! i = Some o ->
       length o = 1%nat /\ Forall (fun row => length row = obs_others_dim) o.
Proof.
  apply (@obs_others_shape Std.quat_ops Example.cfg 13 [1; 0; 0] 1 Hover.rd
           hover_wf_reading).
  lia.
Defined.

(** ** When [_reset_idx] raises, and what it keeps *)

Lemma norm_index_is_Some_iff (E : nat) (i : Z) :
  is_Some (norm_index E i) <-> (- Z.of_nat E <= i < Z.of_nat E)%Z.
Proof.
  split; [|apply norm_index_is_Some].
  unfold norm_index. intros [k Hk]. repeat case_bool_decide; try lia.
  discriminate.
Qed.

Section ResetEdges.
Context `{QuatOps}.

(** X17.  A reset returns exactly when every index lies between [-E] and
    [E - 1] for a batch of [E] instances; a reset on no index changes
    nothing, and on an empty batch every index raises. *)
Theorem reset_idx_returns_iff (cfg : Cfg) (env_ids : list Z)
    (draws : nat -> Draws) (envs : list EnvRow) :
  (is_Some (_reset_idx cfg env_ids draws envs)
   <-> Forall (fun i => (- Z.of_nat (length envs) <= i
                         < Z.of_nat (length envs))%Z) env_ids)
  /\ _reset_idx cfg [] draws envs = Some envs
  /\ (forall i, _reset_idx cfg [i] draws [] = None).
Proof.
  assert (Hiff : forall ids es,
    is_Some (_reset_idx cfg ids draws es)
    <-> Forall (fun i => (- Z.of_nat (length es) <= i
                          < Z.of_nat (length es))%Z) ids).
  { intros ids es. split.
    - intros [es' Hr]. unfold _reset_idx in Hr.
      apply bind_Some in Hr as (ks & Hks & _).
      assert (Hs : is_Some (mapM (norm_index (length es)) ids)) by (by eexists).
      apply mapM_is_Some in Hs. eapply Forall_impl; [exact Hs|].
      intros i Hi. by apply norm_index_is_Some_iff.
    - intros Hr. destruct (reset_idx_total cfg ids draws es Hr)
        as (ks & es' & _ & Hreset).
      by eexists. }
  split; [apply Hiff|]. split; [reflexivity|].
  intros i. apply eq_None_not_Some. rewrite Hiff. intros Hr.
  apply Forall_cons in Hr as [Hi _]. simpl in Hi. lia.
Qed.

(** X18.  A reset keeps the number of instances and the origin of every
    instance, addressed or not. *)
Theorem reset_idx_keeps_origins (cfg : Cfg) (env_ids : list Z)
    (draws : nat -> Draws) (envs envs' : list EnvRow) :
  _reset_idx cfg env_ids draws envs = Some envs' ->
  length envs' = length envs
  /\ envs_position <$> envs' = envs_position <$> envs.
Proof.
  unfold _reset_idx. intros Hr.
  apply bind_Some in Hr as (ids & _ & [= <-]).
  assert (Hlen : length (foldl (fun acc (jk : nat * nat) =>
                    alter (reset_row (sample_reset cfg (draws (fst jk))))
                          (snd jk) acc) envs (imap pair ids))
                 = length envs).
  { apply (foldl_alter_length
             (fun j => reset_row (sample_reset cfg (draws j)))). }
  split; [exact Hlen|].
  apply list_eq. intros k. rewrite !list_lookup_fmap.
  rewrite (foldl_alter_lookup
             (fun j => reset_row (sample_reset cfg (draws j)))).
  destruct (envs !! k) as [row|]; [|done]. simpl.
  by rewrite writes_at_position.
Qed.

(** X19.  When the lower mass bound does not exceed the upper one, a
    sampled payload mass lies between the two bounds, the mass-scale
    fractions of the total vehicle mass, and so does the mass written for
    every addressed instance. *)
Theorem payload_mass_range (cfg : Cfg) :
  payload_mass_low cfg <= payload_mass_high cfg ->
  (forall d, 0 <= u_mass d < 1 ->
     payload_mass_low cfg <= rs_payload_mass (sample_reset cfg d)
     <= payload_mass_high cfg)
  /\ (forall env_ids draws envs envs' k row',
        (forall j, 0 <= u_mass (draws j) < 1) ->
        _reset_idx cfg env_ids draws envs = Some envs' ->
        addressed (length envs) env_ids k ->
        envs' !! k = Some row' ->
        payload_mass_low cfg <= payload_mass row' <= payload_mass_high cfg).
Proof.
  intros Hle.
  assert (Hs : forall d, 0 <= u_mass d < 1 ->
     payload_mass_low cfg <= rs_payload_mass (sample_reset cfg d)
     <= payload_mass_high cfg).
  { intros d Hu. simpl. split; nra. }
  split; [exact Hs|].
  intros env_ids draws envs envs' k row' Hd Hreset Ha Hk'.
  destruct (reset_idx_rows cfg env_ids draws envs envs' Hreset) as [Hlen Hrows].
  destruct (lookup_lt_is_Some_2 envs k) as [row Hk].
  { rewrite <- Hlen. by eapply lookup_lt_Some. }
  destruct (Hrows k row Hk) as (row'' & Hk'' & Hin & _).
  rewrite Hk' in Hk''. injection Hk'' as <-.
  destruct (Hin Ha) as (j & r0 & _ & -> & _ & _).
  apply (Hs (draws j)), Hd.
Qed.

End ResetEdges.

Lemma example_mass_bounds :
  payload_mass_low Example.cfg <= payload_mass_high Example.cfg.
Proof. unfold payload_mass_low, payload_mass_high. simpl. lra. Qed.

Lemma reset_idx_keeps_origins_witness :
  exists envs',
    @_reset_idx Std.quat_ops Example.cfg [0; -1]%Z (fun _ => Std.draws) Std.rows
    = Some envs'
    /\ envs_position <$> envs' = [[0; 0; 0]; [4; 0; 0]; [8; 0; 0]].
Proof.
  destruct (@reset_idx_total Std.quat_ops Example.cfg [0; -1]%Z
              (fun _ => Std.draws) Std.rows)
    as (ids & envs' & _ & Hreset).
  - repeat (constructor; [simpl; lia|]). constructor.
  - exists envs'. split; [exact Hreset|].
    exact (proj2 (@reset_idx_keeps_origins Std.quat_ops Example.cfg [0; -1]%Z
                    (fun _ => Std.draws) Std.rows envs' Hreset)).
Defined.

Lemma payload_mass_range_witness :
  payload_mass_low Example.cfg
  <= rs_payload_mass (@sample_reset Std.quat_ops Example.cfg Std.draws)
  <= payload_mass_high Example.cfg.
Proof.
  apply (proj1 (@payload_mass_range Std.quat_ops Example.cfg
                  example_mass_bounds)).
  simpl. lra.
Defined.

(** ** An upper bound of the reward *)

(** X20.  With non-negative weights and distance scale, an up component
    between -1 and 1, at least one joint, and efforts and throttle
    differences that are not negative, no agent's reward exceeds
    [2.5 + spin weight + swing weight + effort weight]. *)
Theorem reward_upper_bound (cfg : Cfg) (self self' : Instance) (out : Output)
    (up : R) :
  _compute_reward_and_done cfg self = Some (self', out) ->
  0 <= reward_spin_weight cfg ->
  0 <= reward_swing_weight cfg ->
  0 <= reward_effort_weight cfg ->
  0 <= reward_action_smoothness_weight cfg ->
  0 <= reward_distance_scale cfg ->
  payload_up self !! 2%nat = Some up -> -1 <= up <= 1 ->
  joint_positions self <> [] -> joint_limits self <> [] ->
  effort self <> [] -> Forall (fun e => 0 <= e) (effort self) ->
  throttle_difference self <> [] ->
  Forall (fun d => 0 <= d) (throttle_difference self) ->
  forall i r, reward out !! i = Some r ->
    r <= 2.5 + reward_spin_weight cfg + reward_swing_weight cfg
         + reward_effort_weight cfg.
Proof.
  intros Hc Hws Hww Hwe Hwa Hsc Hup Hur Hjp Hjl Hen He Htn Ht i r Hi.
  apply compute_reward_and_done_inv in Hc
    as (sep & up' & mis & _ & Hup' & _ & Hrew & _).
  rewrite Hup in Hup'. injection Hup' as <-.
  rewrite Hrew in Hi. apply lookup_replicate_1 in Hi as [-> _].
  unfold reward_value.
  pose proof (reward_separation_range cfg sep) as Hsep.
  assert (Hp : 0 < reward_pose cfg self <= 1).
  { split; [apply exp_pos|]. unfold reward_pose. rewrite <- exp_0.
    apply exp_le. pose proof (norm_nonneg (target_payload_rpose self)).
    unfold distance. nra. }
  assert (Hu : 0 <= reward_up up <= 1) by (unfold reward_up, square; nra).
  assert (Hspin : 0 <= reward_spin cfg self <= reward_spin_weight cfg).
  { unfold reward_spin. pose proof (exp_neg_square_range (spinnage self)). nra. }
  assert (Hswing : 0 <= reward_swing cfg self <= reward_swing_weight cfg).
  { unfold reward_swing. pose proof (exp_neg_square_range (swing self)). nra. }
  assert (Hjoint : reward_joint_limit self <= 0.5).
  { rewrite reward_joint_limit_eq.
    assert (mean ((fun j : R * (R * R) =>
                     1 - (fst j / Rabs (fst (snd j))) ^ 2)
                    <$> take 16 (zip (joint_positions self) (joint_limits self)))
            <= 1); [|lra].
    apply mean_le.
    - destruct (joint_positions self), (joint_limits self); done.
    - apply Forall_fmap, Forall_forall. intros j _. simpl.
      pose proof (pow2_ge_0 (fst j / Rabs (fst (snd j)))). lra. }
  assert (Hsm : mean (reward_action_smoothness cfg self) <= 0).
  { apply mean_le.
    - unfold reward_action_smoothness. by destruct (throttle_difference self).
    - unfold reward_action_smoothness. apply Forall_fmap.
      eapply Forall_impl; [exact Ht|]. intros d Hd. simpl. nra. }
  assert (Heff : reward_effort cfg self <= reward_effort_weight cfg).
  { unfold reward_effort.
    assert (mean ((fun e => exp (- e)) <$> effort self) <= 1); [|nra].
    apply mean_le; [by destruct (effort self)|]. apply Forall_fmap.
    eapply Forall_impl; [exact He|]. intros e He0. simpl.
    rewrite <- exp_0. apply exp_le. lra. }
  set (rp := reward_pose cfg self) in *.
  set (bonus := reward_up up + reward_spin cfg self + reward_swing cfg self).
  assert (Hbonus : 0 <= bonus
                   <= 1 + reward_spin_weight cfg + reward_swing_weight cfg)
    by (unfold bonus; lra).
  assert (Hprod : rp * bonus
                  <= 1 + reward_spin_weight cfg + reward_swing_weight cfg)
    by nra.
  set (inner := rp + rp * bonus + reward_joint_limit self
                + mean (reward_action_smoothness cfg self)
                + reward_effort cfg self).
  assert (Hinner : inner <= 2.5 + reward_spin_weight cfg
                            + reward_swing_weight cfg
                            + reward_effort_weight cfg)
    by (unfold inner; lra).
  destruct (Rle_dec 0 inner); nra.
Qed.

Lemma reward_upper_bound_witness :
  exists self' out,
    _compute_reward_and_done Example.cfg Example.inst = Some (self', out)
    /\ forall i r, reward out !! i = Some r -> r <= 2.5 + 0.8 + 0.8 + 0.1.
Proof.
  destruct (compute_reward_and_done_total Example.cfg Example.inst)
    as (self' & out & Hc); [simpl; lia | exact example_wf |].
  exists self', out. split; [exact Hc|].
  apply (reward_upper_bound Example.cfg Example.inst self' out 1 Hc);
    simpl; try lra; try done; repeat (constructor; [lra|]); constructor.
Defined.
